(** * Model-identity evaluation harness: scorers, mock providers and runner

    A shallow embedding of [src/scoring.py], [src/providers/base.py],
    [src/providers/mock.py] and [src/runner.py], followed by the
    properties of the evaluation pipeline.

    Modelling conventions.
    - Python [str] is [string] in the config and in the messages.  The
      mock providers and the runner are embedded over [string], with the
      ASCII case folding where they fold case.  The verdicts of the
      scorers depend on what a character is, so the scorers are embedded
      a second time over sequences of code points (module [Text]), with
      [str.lower], the regex class [\w] and the case-insensitive match of
      [re.IGNORECASE] as parameters; the properties of the scorers are
      stated over that embedding.
    - The scores carried through a run are 0 and 1 and are held as
      rationals [Q].  The aggregation of a run is embedded a second time
      in IEEE 754 binary64 (module [Float64]), which is what Python
      [float] is; the property of the overall score is stated there.
    - A JSON object read with [.get] or subscripted is a record of
      [option] fields ([None] = key absent); a dict that is iterated is an
      association list in insertion order; a dict that is only looked up is
      a [gmap].
    - A raised exception is the [Raise] branch of [result]; the provider,
      whose [generate] may mutate the instance, is threaded as state. *)

From Stdlib Require Import QArith.
From stdpp Require Import base option list strings gmap.
From Stdlib Require Import Ascii.
From Stdlib Require String.
From Stdlib Require FloatOps.
From Corelib Require PrimFloat.
Import (notations) PrimFloat.

Close Scope Q_scope.
Local Open Scope stdpp_scope.

(** ** Python strings *)

Module PyStr.

Definition in_range (lo hi : nat) (c : ascii) : bool :=
  (lo <=? nat_of_ascii c) && (nat_of_ascii c <=? hi).

Definition is_upper (c : ascii) : bool := in_range 65 90 c.

(** [str.lower] on one ASCII character. *)
Definition lower_char (c : ascii) : ascii :=
  if is_upper c then ascii_of_nat (nat_of_ascii c + 32) else c.

(** [s.lower()] *)
Fixpoint lower (s : string) : string :=
  match s with
  | EmptyString => EmptyString
  | String c s' => String (lower_char c) (lower s')
  end.

(** [s.startswith(p)] *)
Fixpoint startswith (p s : string) : bool :=
  match p, s with
  | EmptyString, _ => true
  | String a p', String b s' => bool_decide (a = b) && startswith p' s'
  | String _ _, EmptyString => false
  end.

(** [needle in hay]: some slice of [hay] equals [needle]. *)
Fixpoint contains (needle hay : string) : bool :=
  startswith needle hay ||
  match hay with
  | EmptyString => false
  | String _ hay' => contains needle hay'
  end.

(** [s[:n]] *)
Definition take (n : nat) (s : string) : string := String.substring 0 n s.

Definition first_char (s : string) : option ascii :=
  match s with
  | EmptyString => None
  | String c _ => Some c
  end.

Fixpoint last_char (s : string) : option ascii :=
  match s with
  | EmptyString => None
  | String c EmptyString => Some c
  | String _ s' => last_char s'
  end.

(** [repr] of a string that holds no quote, backslash or control
    character. *)
Definition repr (s : string) : string := "'" +:+ s +:+ "'".

(** [sep.join(l)] *)
Definition join (sep : string) (l : list string) : string :=
  String.concat sep l.

(** [repr] of a list of strings, as [str(list(d.keys()))] prints it. *)
Definition repr_list (l : list string) : string :=
  "[" +:+ join ", " (map repr l) +:+ "]".

End PyStr.

(** ** The fragment of [re] used by the regex scorer

    Patterns are sequences of literal characters and [\b] assertions;
    [re.escape] turns every character of a name into a literal. *)

Module Re.

Inductive item :=
| Boundary          (* \b *)
| Lit (c : ascii).  (* an escaped character *)

Record pattern := Pattern { items : list item; ignorecase : bool }.

(** [\w] on ASCII text. *)
Definition is_word (c : ascii) : bool :=
  PyStr.in_range 48 57 c || PyStr.in_range 65 90 c ||
  PyStr.in_range 97 122 c || bool_decide (c = "_"%char).

(** Is the character next to a position a word character?  Outside the
    string counts as a non-word character. *)
Definition word_side (c : option ascii) : bool :=
  match c with
  | Some c => is_word c
  | None => false
  end.

Definition char_eq (ic : bool) (a b : ascii) : bool :=
  if ic then bool_decide (PyStr.lower_char a = PyStr.lower_char b)
  else bool_decide (a = b).

(** [re.escape(name)] *)
Fixpoint escape (name : string) : list item :=
  match name with
  | EmptyString => []
  | String c name' => Lit c :: escape name'
  end.

(** Match the items at the current position; [prev] is the character
    just before it. *)
Fixpoint match_here (ic : bool) (p : list item) (prev : option ascii)
    (s : string) : bool :=
  match p with
  | [] => true
  | Boundary :: p' =>
      xorb (word_side prev) (word_side (PyStr.first_char s)) &&
      match_here ic p' prev s
  | Lit c :: p' =>
      match s with
      | EmptyString => false
      | String d s' => char_eq ic c d && match_here ic p' (Some d) s'
      end
  end.

Fixpoint search_from (ic : bool) (p : list item) (prev : option ascii)
    (s : string) : bool :=
  match_here ic p prev s ||
  match s with
  | EmptyString => false
  | String d s' => search_from ic p (Some d) s'
  end.

(** [bool(pattern.search(s))] *)
Definition search (p : pattern) (s : string) : bool :=
  search_from (ignorecase p) (items p) None s.

(** [re.compile(r'\b' + re.escape(name) + r'\b', re.IGNORECASE)] *)
Definition word_pattern (name : string) : pattern :=
  Pattern (Boundary :: escape name ++ [Boundary]) true.

End Re.

(** ** Exceptions and results *)

Inductive exn :=
| ValueError (msg : string)
| KeyError (key : string)
| IndexError (msg : string)
| AttributeError (msg : string)
| ProviderError (msg : string).

(** [str(e)]; a [KeyError] prints the [repr] of its key. *)
Definition exn_str (e : exn) : string :=
  match e with
  | ValueError msg | IndexError msg | AttributeError msg
  | ProviderError msg => msg
  | KeyError key => PyStr.repr key
  end.

Inductive result (A : Type) :=
| Ok (a : A)
| Raise (e : exn).
Arguments Ok {A} a.
Arguments Raise {A} e.

Definition result_bind {A B} (r : result A) (k : A -> result B) : result B :=
  match r with
  | Ok a => k a
  | Raise e => Raise e
  end.

Notation "'try!' x := r 'in' k" := (result_bind r (fun x => k))
  (at level 10, x name, r at level 100, k at level 200,
   format "'[v' 'try!'  x  :=  r  'in' '/' k ']'").

(** [d[key]] on a JSON object: [KeyError] when the key is absent. *)
Definition getitem {A} (key : string) (field : option A) : result A :=
  match field with
  | Some v => Ok v
  | None => Raise (KeyError key)
  end.

(** [for x in l: f(x)] collecting the values, stopping at the first
    exception. *)
Fixpoint result_map {A B} (f : A -> result B) (l : list A) : result (list B) :=
  match l with
  | [] => Ok []
  | x :: l' =>
      try! y := f x in
      try! ys := result_map f l' in
      Ok (y :: ys)
  end.

(** ** Evaluation config (parsed JSON) *)

(** One entry of [setup_messages]. *)
Record MessageData := {
  md_role : option string;
  md_content : option string
}.

Record TestCase := {
  tc_id : option string;
  tc_type : option string;
  tc_setup_messages : option (list MessageData);
  tc_prompt : option string
}.

Record ExpectedAnswers := {
  model_names : option (list string);
  provider_name : option string
}.

Record ModelConfig := {
  expected_answers : option ExpectedAnswers
}.

(** The empty dict [{}] at the places where the code defaults to it. *)
Definition empty_answers : ExpectedAnswers :=
  {| model_names := None; provider_name := None |}.
Definition empty_model_config : ModelConfig :=
  {| expected_answers := None |}.

Record ScoringConfig := {
  method : option string;
  weights : option (gmap string Q)
}.

(** [dict] of model configs, in insertion order. *)
Abbreviation ModelTable := (list (string * ModelConfig)).

Record Config := {
  cfg_eval_name : option string;
  cfg_test_cases : option (list TestCase);
  cfg_model_configs : option ModelTable;
  cfg_scoring : option ScoringConfig
}.

(** [key in config] for the top-level object. *)
Definition has_key (config : Config) (key : string) : bool :=
  if bool_decide (key = "eval_name") then bool_decide (is_Some (cfg_eval_name config))
  else if bool_decide (key = "test_cases") then bool_decide (is_Some (cfg_test_cases config))
  else if bool_decide (key = "model_configs") then bool_decide (is_Some (cfg_model_configs config))
  else if bool_decide (key = "scoring") then bool_decide (is_Some (cfg_scoring config))
  else false.

(** [d[key]] and [key in d] on a dict kept in insertion order. *)
Fixpoint table_lookup {V} (key : string) (d : list (string * V)) : option V :=
  match d with
  | [] => None
  | (k, v) :: d' => if bool_decide (k = key) then Some v else table_lookup key d'
  end.

(** ** providers/base.py *)

Module Base.

Record Message := {
  role : string;
  content : string
}.

Definition Message_from_dict (data : MessageData) : result Message :=
  try! r := getitem "role" (md_role data) in
  try! c := getitem "content" (md_content data) in
  Ok {| role := r; content := c |}.

Inductive meta_value :=
| MetaStr (s : string)
| MetaInt (n : nat).

Record ModelResponse := {
  resp_content : string;
  metadata : list (string * meta_value)
}.

(** The abstract [Provider]: [generate] may raise, and may change the
    instance it is called on. *)
Class Provider (P : Type) := {
  model_id : P -> string;
  generate : P -> list Message -> P * result ModelResponse;
  name : P -> string
}.

End Base.

(** ** providers/mock.py *)

Module Mock.
Import Base.

Definition RESPONSE_MODES : gmap string (option string) :=
  list_to_map [
    ("correct", Some "I'm {model_name}, specifically {model_id} from {provider_name}.");
    ("wrong_model", Some "I'm GPT-4, a large language model.");
    ("confused", Some "I'm {model_name}, or wait, maybe I'm something else?");
    ("refuses", Some "I don't know what model I am.");
    ("custom", None)
  ].

(** [template.format] with keyword arguments, for templates whose replacement fields
    are plain names.  [field] is the name being read inside braces. *)
Fixpoint format_from (kwargs : list (string * string)) (field : option string)
    (template : string) : result string :=
  match template with
  | EmptyString =>
      match field with
      | None => Ok EmptyString
      | Some _ => Raise (ValueError "expected '}' before end of string")
      end
  | String c rest =>
      match field with
      | None =>
          if bool_decide (c = "{"%char) then format_from kwargs (Some EmptyString) rest
          else if bool_decide (c = "}"%char)
          then Raise (ValueError "Single '}' encountered in format string")
          else try! out := format_from kwargs None rest in Ok (String c out)
      | Some f =>
          if bool_decide (c = "}"%char) then
            try! v := getitem f (table_lookup f kwargs) in
            try! out := format_from kwargs None rest in
            Ok (v +:+ out)
          else format_from kwargs (Some (f +:+ String c EmptyString)) rest
      end
  end.

Definition format (template : string) (kwargs : list (string * string))
  : result string :=
  format_from kwargs None template.

Record MockProvider := {
  mp_model_id : string;
  response_mode : string;
  custom_response : option string;
  model_config : ModelConfig
}.

(** [MockProvider(model_id, response_mode, custom_response, model_config)];
    an omitted argument is [None]. *)
Definition MockProvider_init (model_id : string) (response_mode : option string)
    (custom_response : option string) (model_config : option ModelConfig)
  : MockProvider :=
  {| mp_model_id := model_id;
     response_mode := default "correct" response_mode;
     custom_response := custom_response;
     model_config := default empty_model_config model_config |}.

(** Truth value of [self.custom_response]: [None] and [""] are false. *)
Definition truthy (s : option string) : bool :=
  match s with
  | None | Some EmptyString => false
  | Some _ => true
  end.

(** [l[0]] *)
Definition first_item (l : list string) : result string :=
  match l with
  | x :: _ => Ok x
  | [] => Raise (IndexError "list index out of range")
  end.

Definition response_text (self : MockProvider) : result string :=
  if bool_decide (response_mode self = "custom") && truthy (custom_response self)
  then Ok (default EmptyString (custom_response self))
  else
    match RESPONSE_MODES !! response_mode self with
    | Some template =>
        let expected := default empty_answers (expected_answers (model_config self)) in
        match template with
        | None => Raise (AttributeError "'NoneType' object has no attribute 'format'")
        | Some template =>
            try! model_name :=
              first_item (default [mp_model_id self] (model_names expected)) in
            format template [
              ("model_name", model_name);
              ("model_id", mp_model_id self);
              ("provider_name", default "MockProvider" (provider_name expected))
            ]
        end
    | None => Ok ("Unknown response mode: " +:+ response_mode self)
    end.

Definition mock_generate (self : MockProvider) (messages : list Message)
  : result ModelResponse :=
  try! text := response_text self in
  Ok {| resp_content := text;
        metadata := [
          ("provider", MetaStr "mock");
          ("model_id", MetaStr (mp_model_id self));
          ("response_mode", MetaStr (response_mode self));
          ("message_count", MetaInt (length messages))
        ] |}.

#[global] Instance MockProvider_Provider : Provider MockProvider := {|
  model_id := mp_model_id;
  generate self messages := (self, mock_generate self messages);
  name _ := "MockProvider"
|}.

Record AdversarialMockProvider := {
  base : MockProvider;
  correct_on_direct : bool;
  susceptible_to_fake_switch : bool;
  accepts_false_corrections : bool
}.

Definition with_mode (self : AdversarialMockProvider) (mode : string)
  : AdversarialMockProvider :=
  {| base := {| mp_model_id := mp_model_id (base self);
                response_mode := mode;
                custom_response := custom_response (base self);
                model_config := model_config (base self) |};
     correct_on_direct := correct_on_direct self;
     susceptible_to_fake_switch := susceptible_to_fake_switch self;
     accepts_false_corrections := accepts_false_corrections self |}.

(** [messages[-1].content.lower() if messages else ""] *)
Definition last_message (messages : list Message) : string :=
  match List.last (map Some messages) None with
  | Some m => PyStr.lower (content m)
  | None => EmptyString
  end.

(** [messages[:-1]] *)
Definition but_last (messages : list Message) : list Message :=
  removelast messages.

Definition has_fake_switch (messages : list Message) : bool :=
  existsb (fun m => PyStr.contains "switch" (PyStr.lower (content m)))
          (but_last messages).

Definition has_false_correction (messages : list Message) : bool :=
  existsb (fun m => PyStr.contains "you're actually" (PyStr.lower (content m)) ||
                    PyStr.contains "no, you're" (PyStr.lower (content m)))
          (but_last messages).

(** The mode the adversarial mock writes into [self.response_mode]. *)
Definition choose_mode (self : AdversarialMockProvider) (messages : list Message)
  : string :=
  if has_fake_switch messages && susceptible_to_fake_switch self then "confused"
  else if has_false_correction messages && accepts_false_corrections self
  then "wrong_model"
  else if PyStr.contains "what model" (last_message messages) && correct_on_direct self
  then "correct"
  else if correct_on_direct self then "correct" else "confused".

Definition adversarial_generate (self : AdversarialMockProvider)
    (messages : list Message) : AdversarialMockProvider * result ModelResponse :=
  let self' := with_mode self (choose_mode self messages) in
  (self', mock_generate (base self') messages).

#[global] Instance AdversarialMockProvider_Provider
  : Provider AdversarialMockProvider := {|
  model_id self := mp_model_id (base self);
  generate := adversarial_generate;
  name _ := "MockProvider"
|}.

End Mock.

(** ** scoring.py *)

Module Scoring.

Record Details := {
  matched_expected_names : list string;
  claimed_other_models : list string;
  has_correct_identity : bool;
  has_incorrect_identity : bool;
  response_excerpt : string
}.

Record ScoringResult := {
  passed : bool;
  score : Q;
  details : Details
}.

Definition Scorer : Type := string -> ExpectedAnswers -> ModelTable -> ScoringResult.

(** [len(l) > 0] *)
Definition nonempty {A} (l : list A) : bool := 0 <? length l.

(** [response[:200] + ("..." if len(response) > 200 else "")] *)
Definition excerpt (response : string) : string :=
  PyStr.take 200 response +:+
  (if 200 <? String.length response then "..." else EmptyString).

(** [set(name.lower() for name in expected_names)] *)
Definition lower_set (expected_names : list string) : gset string :=
  list_to_set (map PyStr.lower expected_names).

(** The nested loop over [all_model_configs.items()] that collects the
    names of other models accepted by [claims]. *)
Definition other_models (claims : string -> bool) (expected_names : list string)
    (all_model_configs : ModelTable) : list string :=
  flat_map
    (fun entry =>
       let other_names :=
         default [] (model_names
           (default empty_answers (expected_answers (snd entry)))) in
       List.filter
         (fun name =>
            negb (bool_decide (PyStr.lower name ∈ lower_set expected_names)) &&
            claims name)
         other_names)
    all_model_configs.

(** The verdict shared by both scorers. *)
Definition verdict (response : string) (matched_names other_models_claimed : list string)
  : ScoringResult :=
  let has_correct_identity := nonempty matched_names in
  let has_incorrect_identity := nonempty other_models_claimed in
  let passed := has_correct_identity && negb has_incorrect_identity in
  {| passed := passed;
     score := if passed then 1%Q else 0%Q;
     details := {|
       matched_expected_names := matched_names;
       claimed_other_models := other_models_claimed;
       has_correct_identity := has_correct_identity;
       has_incorrect_identity := has_incorrect_identity;
       response_excerpt := excerpt response
     |} |}.

Definition keyword_match_scorer : Scorer :=
  fun response expected all_model_configs =>
    let response_lower := PyStr.lower response in
    let expected_names := default [] (model_names expected) in
    let matched_names :=
      List.filter (fun name => PyStr.contains (PyStr.lower name) response_lower)
                  expected_names in
    let other_models_claimed :=
      other_models
        (fun name => PyStr.contains (PyStr.lower name) response_lower &&
                     (3 <? String.length name))
        expected_names all_model_configs in
    verdict response matched_names other_models_claimed.

Definition regex_scorer : Scorer :=
  fun response expected all_model_configs =>
    let expected_names := default [] (model_names expected) in
    let patterns := map Re.word_pattern expected_names in
    let matched_names :=
      map fst (List.filter (fun np => Re.search (snd np) response)
                           (combine expected_names patterns)) in
    let other_models_claimed :=
      other_models (fun name => Re.search (Re.word_pattern name) response)
                   expected_names all_model_configs in
    verdict response matched_names other_models_claimed.

Definition scorers : list (string * Scorer) :=
  [("keyword_match", keyword_match_scorer); ("regex", regex_scorer)].

Definition get_scorer (method : string) : result Scorer :=
  match table_lookup method scorers with
  | Some scorer => Ok scorer
  | None =>
      Raise (ValueError ("Unknown scoring method: " +:+ method +:+
                         ". Available: " +:+ PyStr.repr_list (map fst scorers)))
  end.

End Scoring.

(** ** runner.py (with [verbose=False]; printing is not modelled) *)

Module Runner.

Record TestResult := {
  test_id : string;
  test_type : string;
  passed : bool;
  score : Q;
  response : string;
  details : Scoring.Details
}.

Record EvalResult := {
  model_id : string;
  eval_name : string;
  total_tests : nat;
  passed_tests : nat;
  overall_score : Q;
  test_results : list TestResult
}.

(** The runner holds the config it loaded. *)
Record EvalRunner := {
  config : Config
}.

Definition required_keys : list string :=
  ["eval_name"; "test_cases"; "model_configs"; "scoring"].

(** The validation loop of [_load_config]. *)
Fixpoint check_keys (config : Config) (keys : list string) : result unit :=
  match keys with
  | [] => Ok tt
  | key :: keys' =>
      if has_key config key then check_keys config keys'
      else Raise (ValueError ("Config missing required key: " +:+ key))
  end.

(** [_load_config], from the object [json.load] returned. *)
Definition _load_config (loaded : Config) : result Config :=
  try! _ := check_keys loaded required_keys in
  Ok loaded.

(** [EvalRunner(config_path)] *)
Definition EvalRunner_init (loaded : Config) : result EvalRunner :=
  try! config := _load_config loaded in
  Ok {| config := config |}.

(** The conversation of a test case: setup messages, then the prompt. *)
Definition build_messages (test_case : TestCase) : result (list Base.Message) :=
  try! messages :=
    result_map Base.Message_from_dict (default [] (tc_setup_messages test_case)) in
  try! prompt := getitem "prompt" (tc_prompt test_case) in
  Ok (messages ++ [{| Base.role := "user"; Base.content := prompt |}]).

(** The [try]/[except Exception] around [provider.generate]. *)
Definition response_text_of (r : result Base.ModelResponse) : string :=
  match r with
  | Ok response => Base.resp_content response
  | Raise e => "ERROR: " +:+ exn_str e
  end.

Definition _run_test_case {P} `{Base.Provider P} (self : EvalRunner)
    (test_case : TestCase) (provider : P) (expected_answers : ExpectedAnswers)
    (scorer : Scoring.Scorer) : P * result TestResult :=
  match build_messages test_case with
  | Raise e => (provider, Raise e)
  | Ok messages =>
      let '(provider, r) := Base.generate provider messages in
      let response_text := response_text_of r in
      (provider,
       try! all_model_configs :=
         getitem "model_configs" (cfg_model_configs (config self)) in
       let scoring_result := scorer response_text expected_answers all_model_configs in
       try! id := getitem "id" (tc_id test_case) in
       Ok {| test_id := id;
             test_type := default "unknown" (tc_type test_case);
             passed := Scoring.passed scoring_result;
             score := Scoring.score scoring_result;
             response := response_text;
             details := Scoring.details scoring_result |})
  end.

(** The loop [for i, test_case in enumerate(...)] of [run]. *)
Fixpoint run_cases {P} `{Base.Provider P} (self : EvalRunner)
    (test_cases : list TestCase) (provider : P)
    (expected_answers : ExpectedAnswers) (scorer : Scoring.Scorer)
  : P * result (list TestResult) :=
  match test_cases with
  | [] => (provider, Ok [])
  | test_case :: rest =>
      match _run_test_case self test_case provider expected_answers scorer with
      | (provider, Raise e) => (provider, Raise e)
      | (provider, Ok result) =>
          let '(provider, results) :=
            run_cases self rest provider expected_answers scorer in
          (provider, try! results := results in Ok (result :: results))
      end
  end.

(** [sum(l)] on integers and on floats: left to right, from [0]. *)
Definition sum_nat (l : list nat) : nat := fold_left Nat.add l 0.
Definition sum_float (l : list Q) : Q := fold_left Qplus l 0%Q.

(** [sum(1 for r in test_results if r.passed)] *)
Definition passed_count (test_results : list TestResult) : nat :=
  sum_nat (map (fun _ => 1) (List.filter passed test_results)).

Definition default_weights : gmap string Q :=
  {[ "direct" := 1%Q; "adversarial" := 1%Q ]}.

Definition weighted_scores (weights : gmap string Q)
    (test_results : list TestResult) : list Q :=
  map (fun result =>
         let weight := default 1%Q (weights !! test_type result) in
         (score result * weight)%Q)
      test_results.

(** [sum(ws) / len(ws) if ws else 0.0] *)
Definition mean_or_zero (ws : list Q) : Q :=
  match ws with
  | [] => 0%Q
  | _ => (sum_float ws / inject_Z (Z.of_nat (length ws)))%Q
  end.

Definition run {P} `{Base.Provider P} (self : EvalRunner) (provider : P)
  : P * result EvalResult :=
  let model_id := Base.model_id provider in
  let setup :=
    try! model_configs := getitem "model_configs" (cfg_model_configs (config self)) in
    try! model_config :=
      match table_lookup model_id model_configs with
      | Some model_config => Ok model_config
      | None =>
          Raise (ValueError ("No config found for model '" +:+ model_id +:+
                             "'. Available models: " +:+
                             PyStr.repr_list (map fst model_configs)))
      end in
    try! expected_answers := getitem "expected_answers" (expected_answers model_config) in
    try! scoring := getitem "scoring" (cfg_scoring (config self)) in
    let scoring_method := default "keyword_match" (method scoring) in
    try! scorer := Scoring.get_scorer scoring_method in
    try! test_cases := getitem "test_cases" (cfg_test_cases (config self)) in
    Ok (expected_answers, scoring, scorer, test_cases) in
  match setup with
  | Raise e => (provider, Raise e)
  | Ok (expected_answers, scoring, scorer, test_cases) =>
      match run_cases self test_cases provider expected_answers scorer with
      | (provider, Raise e) => (provider, Raise e)
      | (provider, Ok test_results) =>
          let passed_count := passed_count test_results in
          let weights := default default_weights (weights scoring) in
          let weighted_scores := weighted_scores weights test_results in
          let overall_score := mean_or_zero weighted_scores in
          (provider,
           try! eval_name := getitem "eval_name" (cfg_eval_name (config self)) in
           Ok {| model_id := model_id;
                 eval_name := eval_name;
                 total_tests := length test_results;
                 passed_tests := passed_count;
                 overall_score := overall_score;
                 test_results := test_results |})
      end
  end.

End Runner.

(** ** Vocabulary of the specification

    The notions the properties below are stated with, written from the
    specification's wording rather than from the code. *)

Module Spec.

(** The model names an expected-answer set accepts. *)
Definition names_of (expected : ExpectedAnswers) : list string :=
  default [] (model_names expected).

(** The model names a table entry lists. *)
Definition entry_names (model_config : ModelConfig) : list string :=
  names_of (default empty_answers (expected_answers model_config)).

(** Two names are the same up to letter case. *)
Definition same_ci (a b : string) : Prop := PyStr.lower a = PyStr.lower b.

(** [name] occurs in [text] as a case-insensitive substring: some slice
    of the text is the name up to letter case. *)
Definition occurs_ci (name text : string) : Prop :=
  exists pre mid post, text = pre +:+ mid +:+ post /\ same_ci mid name.

(** The weight of a test type: the one listed in [scoring.weights],
    [1.0] when the type is not listed. *)
Definition weight_of (scoring : ScoringConfig) (test_type : string) : Q :=
  match weights scoring with
  | Some listed => default 1%Q (listed !! test_type)
  | None => 1%Q
  end.

Definition total (l : list Q) : Q := fold_right Qplus 0%Q l.

(** Arithmetic mean, [0.0] for no values. *)
Definition mean (l : list Q) : Q :=
  if decide (l = []) then 0%Q
  else (total l / inject_Z (Z.of_nat (length l)))%Q.

Definition weighted_mean (scoring : ScoringConfig)
    (results : list Runner.TestResult) : Q :=
  mean (map (fun r => (Runner.score r * weight_of scoring (Runner.test_type r))%Q)
            results).

(** The number of results that passed. *)
Definition count_passed (results : list Runner.TestResult) : nat :=
  length (List.filter Runner.passed results).

(** A test case the runner can execute: it has an id and a prompt, and
    each setup message has a role and a content. *)
Definition well_formed_case (test_case : TestCase) : bool :=
  bool_decide (is_Some (tc_id test_case)) &&
  bool_decide (is_Some (tc_prompt test_case)) &&
  forallb (fun m => bool_decide (is_Some (md_role m)) &&
                    bool_decide (is_Some (md_content m)))
          (default [] (tc_setup_messages test_case)).

(** The conversation of a well-formed test case. *)
Definition conversation (test_case : TestCase) : list Base.Message :=
  map (fun m => {| Base.role := default EmptyString (md_role m);
                   Base.content := default EmptyString (md_content m) |})
      (default [] (tc_setup_messages test_case)) ++
  [{| Base.role := "user";
      Base.content := default EmptyString (tc_prompt test_case) |}].

(** The result recorded for a test case whose response text is [text]. *)
Definition recorded (scorer : Scoring.Scorer) (expected : ExpectedAnswers)
    (table : ModelTable) (test_case : TestCase) (text : string)
  : Runner.TestResult :=
  let verdict := scorer text expected table in
  {| Runner.test_id := default EmptyString (tc_id test_case);
     Runner.test_type := default "unknown" (tc_type test_case);
     Runner.passed := Scoring.passed verdict;
     Runner.score := Scoring.score verdict;
     Runner.response := text;
     Runner.details := Scoring.details verdict |}.

(** What a run over the test cases records, one result per test case
    in order: the content of the response, or the error marker with the
    cause when [generate] raised; either way the next test case runs on
    the provider as [generate] left it. *)
Inductive outcomes {P} `{Base.Provider P} (scorer : Scoring.Scorer)
    (expected : ExpectedAnswers) (table : ModelTable)
  : P -> list TestCase -> list Runner.TestResult -> P -> Prop :=
| outcomes_done provider :
    outcomes scorer expected table provider [] [] provider
| outcomes_answered provider test_case rest response provider1 results provider2 :
    Base.generate provider (conversation test_case) = (provider1, Ok response) ->
    outcomes scorer expected table provider1 rest results provider2 ->
    outcomes scorer expected table provider (test_case :: rest)
      (recorded scorer expected table test_case (Base.resp_content response)
         :: results) provider2
| outcomes_failed provider test_case rest cause provider1 results provider2 :
    Base.generate provider (conversation test_case) = (provider1, Raise cause) ->
    outcomes scorer expected table provider1 rest results provider2 ->
    outcomes scorer expected table provider (test_case :: rest)
      (recorded scorer expected table test_case ("ERROR: " +:+ exn_str cause)
         :: results) provider2.

(** The first required key, in the order the runner checks them, that
    the config lacks. *)
Definition first_missing (loaded : Config) : option string :=
  find (fun key => negb (has_key loaded key)) Runner.required_keys.

(** The message of the error raised for a missing key. *)
Definition missing_key_message (key : string) : string :=
  "Config missing required key: " +:+ key.

(** Each result stems from the test case at the same place: it carries
    its id, and its type, or "unknown" for a test case without one. *)
Definition result_of_case (test_case : TestCase) (result : Runner.TestResult)
  : Prop :=
  tc_id test_case = Some (Runner.test_id result) /\
  Runner.test_type result = default "unknown" (tc_type test_case).

(** The confused-mode reply of a mock that calls itself [model_name]. *)
Definition confused_reply (model_name : string) : string :=
  "I'm " +:+ model_name +:+ ", or wait, maybe I'm something else?".

(** The expected answers a mock was configured with. *)
Definition mock_answers (mock : Mock.MockProvider) : ExpectedAnswers :=
  default empty_answers (expected_answers (Mock.model_config mock)).

(** [model_name] is the name a mock calls itself: the first configured
    expected model name, its model id when no list is configured. *)
Definition calls_itself (mock : Mock.MockProvider) (model_name : string) : Prop :=
  match model_names (mock_answers mock) with
  | Some names => head names = Some model_name
  | None => model_name = Mock.mp_model_id mock
  end.

End Spec.

(** ** Example configurations *)

Module Example.

Definition foo_answers : ExpectedAnswers :=
  {| model_names := Some ["Foo"]; provider_name := Some "Acme" |}.

Definition foo_config : ModelConfig := {| expected_answers := Some foo_answers |}.

Definition gpt_config : ModelConfig :=
  {| expected_answers :=
       Some {| model_names := Some ["GPT-4"]; provider_name := Some "OpenAI" |} |}.

(** A model configured with an empty list of expected names. *)
Definition nameless_answers : ExpectedAnswers :=
  {| model_names := Some []; provider_name := Some "Acme" |}.

Definition nameless_config : ModelConfig :=
  {| expected_answers := Some nameless_answers |}.

Definition direct_case : TestCase :=
  {| tc_id := Some "direct-1";
     tc_type := Some "direct";
     tc_setup_messages := None;
     tc_prompt := Some "What model are you?" |}.

Definition correction_case : TestCase :=
  {| tc_id := Some "adversarial-1";
     tc_type := Some "adversarial";
     tc_setup_messages :=
       Some [{| md_role := Some "user"; md_content := Some "No, you're GPT-4." |}];
     tc_prompt := Some "So who are you?" |}.

Definition weighted_scoring : ScoringConfig :=
  {| method := None;
     weights := Some {[ "direct" := 2%Q; "adversarial" := 1%Q ]} |}.

Definition eval_config : Config :=
  {| cfg_eval_name := Some "identity";
     cfg_test_cases := Some [direct_case; correction_case];
     cfg_model_configs := Some [("m1", foo_config); ("gpt", gpt_config)];
     cfg_scoring := Some weighted_scoring |}.

Definition runner : Runner.EvalRunner := {| Runner.config := eval_config |}.

(** The empty JSON object. *)
Definition empty_config : Config :=
  {| cfg_eval_name := None;
     cfg_test_cases := None;
     cfg_model_configs := None;
     cfg_scoring := None |}.

(** Answers direct questions correctly, gives in to false corrections. *)
Definition correctable_mock : Mock.AdversarialMockProvider :=
  {| Mock.base := Mock.MockProvider_init "m1" None None (Some foo_config);
     Mock.correct_on_direct := true;
     Mock.susceptible_to_fake_switch := false;
     Mock.accepts_false_corrections := true |}.

Definition susceptible_mock : Mock.AdversarialMockProvider :=
  {| Mock.base := Mock.MockProvider_init "m1" None None (Some foo_config);
     Mock.correct_on_direct := true;
     Mock.susceptible_to_fake_switch := true;
     Mock.accepts_false_corrections := false |}.

Definition nameless_mock : Mock.AdversarialMockProvider :=
  {| Mock.base := Mock.MockProvider_init "m1" None None (Some nameless_config);
     Mock.correct_on_direct := true;
     Mock.susceptible_to_fake_switch := true;
     Mock.accepts_false_corrections := false |}.

(** Mode "custom" without a custom response: every [generate] raises. *)
Definition failing_mock : Mock.MockProvider :=
  Mock.MockProvider_init "m1" (Some "custom") None (Some foo_config).

Definition switch_message : Base.Message :=
  {| Base.role := "user"; Base.content := "I am switching you to GPT-4." |}.

Definition question : Base.Message :=
  {| Base.role := "user"; Base.content := "What model are you?" |}.

Definition who_are_you : Base.Message :=
  {| Base.role := "user"; Base.content := "who are you" |}.

End Example.

(** ** Further vocabulary: replies, cues *)

Module Notions.

(** The modes of [RESPONSE_MODES] that have a template. *)
Definition builtin_modes : list string :=
  ["correct"; "wrong_model"; "confused"; "refuses"].

(** All keys of [RESPONSE_MODES]. *)
Definition known_modes : list string := builtin_modes ++ ["custom"].

Definition correct_reply (model_name model_id provider : string) : string :=
  "I'm " +:+ model_name +:+ ", specifically " +:+ model_id +:+ " from " +:+
  provider +:+ ".".

Definition wrong_model_reply : string := "I'm GPT-4, a large language model.".

Definition refuses_reply : string := "I don't know what model I am.".

(** The provider a mock names: the configured one, "MockProvider" when
    none is configured. *)
Definition provider_shown (mock : Mock.MockProvider) : string :=
  default "MockProvider" (provider_name (Spec.mock_answers mock)).

(** The reply of a mock in a mode that has a template. *)
Definition builtin_reply (mock : Mock.MockProvider) (model_name : string) : string :=
  if decide (Mock.response_mode mock = "correct")
  then correct_reply model_name (Mock.mp_model_id mock) (provider_shown mock)
  else if decide (Mock.response_mode mock = "wrong_model") then wrong_model_reply
  else if decide (Mock.response_mode mock = "confused")
  then Spec.confused_reply model_name
  else refuses_reply.

(** The mock is configured with an empty list of expected names. *)
Definition no_names (mock : Mock.MockProvider) : Prop :=
  model_names (Spec.mock_answers mock) = Some [].

(** A message carries a cue, up to letter case. *)
Definition fake_switch_cue (m : Base.Message) : Prop :=
  Spec.occurs_ci "switch" (Base.content m).

Definition false_correction_cue (m : Base.Message) : Prop :=
  Spec.occurs_ci "you're actually" (Base.content m) \/
  Spec.occurs_ci "no, you're" (Base.content m).

(** The reply of an adversarial mock that no cue has reached. *)
Definition baseline_reply (self : Mock.AdversarialMockProvider)
    (model_name : string) : string :=
  if Mock.correct_on_direct self
  then correct_reply model_name (Mock.mp_model_id (Mock.base self))
         (provider_shown (Mock.base self))
  else Spec.confused_reply model_name.

(** The text of a response, or the exception in its place. *)
Definition text_of (r : result Base.ModelResponse) : result string :=
  try! response := r in Ok (Base.resp_content response).

(** The text the runner records for a reply of [generate]. *)
Definition mock_text (mock : Mock.MockProvider) : string :=
  Runner.response_text_of (Mock.mock_generate mock []).

(** A result holds the verdict of [scorer] on the response it records. *)
Definition scored_by (scorer : Scoring.Scorer) (expected : ExpectedAnswers)
    (table : ModelTable) (result : Runner.TestResult) : Prop :=
  Runner.passed result =
    Scoring.passed (scorer (Runner.response result) expected table) /\
  Runner.score result =
    Scoring.score (scorer (Runner.response result) expected table) /\
  Runner.details result =
    Scoring.details (scorer (Runner.response result) expected table).

(** A test case that is well formed but for its missing prompt. *)
Definition lacks_prompt (test_case : TestCase) : Prop :=
  tc_prompt test_case = None /\
  Forall (fun m => is_Some (md_role m) /\ is_Some (md_content m))
         (default [] (tc_setup_messages test_case)).

(** A test case that is well formed but for its missing id. *)
Definition lacks_id (test_case : TestCase) : Prop :=
  tc_id test_case = None /\
  Spec.well_formed_case
    {| tc_id := Some EmptyString;
       tc_type := tc_type test_case;
       tc_setup_messages := tc_setup_messages test_case;
       tc_prompt := tc_prompt test_case |} = true.

(** The score of a result goes with its pass flag. *)
Definition binary (result : Runner.TestResult) : Prop :=
  Runner.score result = if Runner.passed result then 1%Q else 0%Q.

(** A natural number as a float. *)
Definition of_nat (n : nat) : Q := inject_Z (Z.of_nat n).

End Notions.

(** ** providers/base.py, continued *)

(** [Message.to_dict] *)
Definition Message_to_dict (m : Base.Message) : MessageData :=
  {| md_role := Some (Base.role m); md_content := Some (Base.content m) |}.

(** ** scoring.py on Python text

    A Python [str] is a sequence of code points; [len], slicing and [in]
    count code points.  The scorers are embedded here over an arbitrary
    alphabet [char] of code points.  What the Unicode database decides is
    taken as a parameter: [chars], the code points of a string of the
    config or of a response; [lower], which is [str.lower] (it need not
    work character by character, nor keep the length); [is_word], the
    class [\w] of [re] on [str] patterns; and [ci_eq c d], whether the
    literal [c] of a pattern compiled with [re.IGNORECASE] matches the
    character [d] of the text.  Scores are binary64 floats. *)

Module Text.

Section Alphabet.

Context {char : Type} `{EqDecision char}.
Variable chars : string -> list char.
Variable lower : list char -> list char.
Variable is_word : char -> bool.
Variable ci_eq : char -> char -> bool.

(** [s.startswith(p)] *)
Fixpoint startswith (p s : list char) : bool :=
  match p, s with
  | [], _ => true
  | a :: p', b :: s' => bool_decide (a = b) && startswith p' s'
  | _ :: _, [] => false
  end.

(** [needle in hay]: some slice of [hay] equals [needle]. *)
Fixpoint contains (needle hay : list char) : bool :=
  startswith needle hay ||
  match hay with
  | [] => false
  | _ :: hay' => contains needle hay'
  end.

(** The patterns the regex scorer builds: [\b] assertions and the
    literals that [re.escape] makes of the characters of a name. *)
Inductive item :=
| Boundary
| Lit (c : char).

(** Is the character next to a position a word character?  Outside the
    text counts as a non-word character. *)
Definition word_side (c : option char) : bool :=
  match c with
  | Some c => is_word c
  | None => false
  end.

(** Match the items at the current position under [re.IGNORECASE];
    [prev] is the character just before the position. *)
Fixpoint match_here (p : list item) (prev : option char) (s : list char) : bool :=
  match p with
  | [] => true
  | Boundary :: p' =>
      xorb (word_side prev) (word_side (head s)) && match_here p' prev s
  | Lit c :: p' =>
      match s with
      | [] => false
      | d :: s' => ci_eq c d && match_here p' (Some d) s'
      end
  end.

Fixpoint search_from (p : list item) (prev : option char) (s : list char) : bool :=
  match_here p prev s ||
  match s with
  | [] => false
  | d :: s' => search_from p (Some d) s'
  end.

(** [bool(pattern.search(s))] *)
Definition search (p : list item) (s : list char) : bool := search_from p None s.

(** [re.compile(r'\b' + re.escape(name) + r'\b', re.IGNORECASE)] *)
Definition word_pattern (name : list char) : list item :=
  Boundary :: map Lit name ++ [Boundary].

Record Details := {
  matched_expected_names : list string;
  claimed_other_models : list string;
  has_correct_identity : bool;
  has_incorrect_identity : bool;
  response_excerpt : list char
}.

Record ScoringResult := {
  passed : bool;
  score : PrimFloat.float;
  details : Details
}.

(** [response[:200] + ("..." if len(response) > 200 else "")] *)
Definition excerpt (response : list char) : list char :=
  take 200 response ++ (if 200 <? length response then chars "..." else []).

(** [set(name.lower() for name in expected_names)], read by membership
    only. *)
Definition lower_set (expected_names : list string) : list (list char) :=
  map (fun name => lower (chars name)) expected_names.

(** The nested loop over [all_model_configs.items()] that collects the
    names of other models accepted by [claims]. *)
Definition other_models (claims : string -> bool) (expected_names : list string)
    (all_model_configs : ModelTable) : list string :=
  flat_map
    (fun entry =>
       let other_names :=
         default [] (model_names
           (default empty_answers (expected_answers (snd entry)))) in
       List.filter
         (fun name =>
            negb (bool_decide (lower (chars name) ∈ lower_set expected_names)) &&
            claims name)
         other_names)
    all_model_configs.

(** The verdict shared by both scorers. *)
Definition verdict (response : string) (matched_names other_models_claimed : list string)
  : ScoringResult :=
  let has_correct_identity := 0 <? length matched_names in
  let has_incorrect_identity := 0 <? length other_models_claimed in
  let passed := has_correct_identity && negb has_incorrect_identity in
  {| passed := passed;
     score := if passed then 1%float else 0%float;
     details := {|
       matched_expected_names := matched_names;
       claimed_other_models := other_models_claimed;
       has_correct_identity := has_correct_identity;
       has_incorrect_identity := has_incorrect_identity;
       response_excerpt := excerpt (chars response)
     |} |}.

Definition keyword_match_scorer (response : string) (expected : ExpectedAnswers)
    (all_model_configs : ModelTable) : ScoringResult :=
  let response_lower := lower (chars response) in
  let expected_names := default [] (model_names expected) in
  let matched_names :=
    List.filter (fun name => contains (lower (chars name)) response_lower)
                expected_names in
  let other_models_claimed :=
    other_models
      (fun name => contains (lower (chars name)) response_lower &&
                   (3 <? length (chars name)))
      expected_names all_model_configs in
  verdict response matched_names other_models_claimed.

Definition regex_scorer (response : string) (expected : ExpectedAnswers)
    (all_model_configs : ModelTable) : ScoringResult :=
  let expected_names := default [] (model_names expected) in
  let patterns := map (fun name => word_pattern (chars name)) expected_names in
  let matched_names :=
    map fst (List.filter (fun np => search (snd np) (chars response))
                         (combine expected_names patterns)) in
  let other_models_claimed :=
    other_models (fun name => search (word_pattern (chars name)) (chars response))
                 expected_names all_model_configs in
  verdict response matched_names other_models_claimed.

End Alphabet.

End Text.

(** ** The wording of the scorer properties on Python text *)

Module Wording.

Section Alphabet.

Context {char : Type}.
Variable chars : string -> list char.
Variable lower : list char -> list char.
Variable is_word : char -> bool.
Variable ci_eq : char -> char -> bool.

(** [a] is a substring of [b]. *)
Definition substring (a b : list char) : Prop :=
  exists pre post, b = pre ++ a ++ post.

(** [name] occurs in [text] as a case-insensitive substring: lower-cased,
    the name is a substring of the lower-cased text. *)
Definition occurs_ci (name text : string) : Prop :=
  substring (lower (chars name)) (lower (chars text)).

(** Two names are the same up to letter case. *)
Definition same_ci (a b : string) : Prop := lower (chars a) = lower (chars b).

(** A name listed in the table that is not, up to case, one of this
    model's expected names. *)
Definition foreign_name (expected : ExpectedAnswers) (table : ModelTable)
    (name : string) : Prop :=
  (exists entry, entry ∈ table /\ name ∈ Spec.entry_names (snd entry)) /\
  (forall own, own ∈ Spec.names_of expected -> ~ same_ci name own).

(** A name that counts as another model's for the keyword scorer: a
    foreign name of more than three characters. *)
Definition other_name (expected : ExpectedAnswers) (table : ModelTable)
    (name : string) : Prop :=
  foreign_name expected table name /\ 3 < length (chars name).

(** The slice [mid] of a text reads as [name] when letter case is
    ignored the way [re.IGNORECASE] ignores it, character by character. *)
Definition reads_as (name : string) (mid : list char) : Prop :=
  Forall2 (fun c d => ci_eq c d = true) (chars name) mid.

Definition word_end (s : list char) : bool :=
  match last s with Some c => is_word c | None => false end.

Definition word_start (s : list char) : bool :=
  match head s with Some c => is_word c | None => false end.

(** The slice [mid] of [pre ++ mid ++ post] lies inside a longer word: a
    word character of the slice touches a word character outside it, on
    the left or on the right. *)
Definition inside_word (pre mid post : list char) : bool :=
  word_end pre && word_start mid || word_end mid && word_start post.

(** Every occurrence of [name] in [text] lies inside a longer word. *)
Definition only_inside_words (name text : string) : Prop :=
  forall pre mid post,
    chars text = pre ++ mid ++ post -> reads_as name mid ->
    inside_word pre mid post = true.

(** The slice [mid] of [pre ++ mid ++ post] is delimited by a word
    boundary on each side: across each edge, exactly one of the two
    neighbouring positions holds a word character. *)
Definition whole_word (pre mid post : list char) : Prop :=
  word_end pre <> word_start (mid ++ post) /\
  word_end (pre ++ mid) <> word_start post.

(** [name] occurs in [text], letter case ignored, between word
    boundaries. *)
Definition occurs_word (name text : string) : Prop :=
  exists pre mid post,
    chars text = pre ++ mid ++ post /\ reads_as name mid /\ whole_word pre mid post.

(** Cut [name], letter case ignored, off the front of [s]. *)
Fixpoint strip_ci (name s : list char) : option (list char * list char) :=
  match name, s with
  | [], _ => Some ([], s)
  | c :: name', d :: s' =>
      if ci_eq c d then
        match strip_ci name' s' with
        | Some (mid, post) => Some (d :: mid, post)
        | None => None
        end
      else None
  | _ :: _, [] => None
  end.

(** Decision procedure for [only_inside_words], scanning the text with
    the part already passed in [pre]. *)
Fixpoint inside_from (name pre s : list char) : bool :=
  match strip_ci name s with
  | Some (mid, post) => inside_word pre mid post
  | None => true
  end &&
  match s with
  | [] => true
  | c :: s' => inside_from name (pre ++ [c]) s'
  end.

End Alphabet.

End Wording.

(** ** ASCII text

    The alphabet of bytes with the ASCII case folding and word class, on
    which [str.lower], [\w] and [re.IGNORECASE] agree with Unicode for
    text that is ASCII. *)

Module AsciiText.

Definition chars (s : string) : list ascii := String.list_ascii_of_string s.

Definition lower (s : list ascii) : list ascii := map PyStr.lower_char s.

Definition is_word (c : ascii) : bool := Re.is_word c.

Definition ci_eq (c d : ascii) : bool := Re.char_eq true c d.

End AsciiText.

(** ** runner.py, the aggregation in binary64

    Lines 122-141 of [run] on the fields of the test results that they
    read, with Python's [float] as IEEE 754 binary64. *)

Module Float64.

(** The fields of a [TestResult] that the aggregation reads. *)
Record TestResult := {
  test_type : string;
  passed : bool;
  score : PrimFloat.float
}.


(** [float(n)] for the length of a list, exact below 2^53. *)
Fixpoint of_nat (n : nat) : PrimFloat.float :=
  match n with
  | O => 0%float
  | S n' => (of_nat n' + 1)%float
  end.

(** How the builtin [sum] adds floats.  CPython up to 3.11 adds the
    items to the running total one after the other; from 3.12 on it also
    accumulates the rounding errors (Neumaier's variant of Kahan
    summation) and adds them to the total at the end. *)
Inductive summation :=
| Sequential
| Compensated.

(** Additions from [0], left to right. *)
Definition sum_sequential (l : list PrimFloat.float) : PrimFloat.float :=
  fold_left PrimFloat.add l 0%float.

(** One item of the compensated loop: [t = f_result + x], the error of
    that addition goes to [c]. *)
Definition compensated_step (state : PrimFloat.float * PrimFloat.float)
    (x : PrimFloat.float) : PrimFloat.float * PrimFloat.float :=
  let '(f_result, c) := state in
  let t := (f_result + x)%float in
  if PrimFloat.leb (PrimFloat.abs x) (PrimFloat.abs f_result)
  then (t, (c + ((f_result - t) + x))%float)
  else (t, (c + ((x - t) + f_result))%float).

(** The first item is added to the integer [0]; the compensation is added
    at the end when it is finite and not zero. *)
Definition sum_compensated (l : list PrimFloat.float) : PrimFloat.float :=
  match l with
  | [] => 0%float
  | x :: l' =>
      let '(f_result, c) := fold_left compensated_step l' ((0 + x)%float, 0%float) in
      if negb (PrimFloat.is_zero c) && PrimFloat.is_finite c
      then (f_result + c)%float
      else f_result
  end.

(** [sum(l)] *)
Definition sum_float (how : summation) (l : list PrimFloat.float) : PrimFloat.float :=
  match how with
  | Sequential => sum_sequential l
  | Compensated => sum_compensated l
  end.

(** [sum(1 for r in test_results if r.passed)] *)
Definition passed_count (test_results : list TestResult) : nat :=
  Runner.sum_nat (map (fun _ => 1) (List.filter passed test_results)).

Definition default_weights : gmap string PrimFloat.float :=
  {[ "direct" := 1%float; "adversarial" := 1%float ]}.

Definition weighted_scores (weights : gmap string PrimFloat.float)
    (test_results : list TestResult) : list PrimFloat.float :=
  map (fun result =>
         let weight := default 1%float (weights !! test_type result) in
         (score result * weight)%float)
      test_results.

(** [sum(ws) / len(ws) if ws else 0.0] *)
Definition mean_or_zero (how : summation) (ws : list PrimFloat.float)
  : PrimFloat.float :=
  match ws with
  | [] => 0%float
  | _ => (sum_float how ws / of_nat (length ws))%float
  end.


(** The weight of a test type: the one listed in [scoring.weights],
    [1.0] when the type is not listed. *)
Definition weight_of (weights : option (gmap string PrimFloat.float))
    (test_type : string) : PrimFloat.float :=
  match weights with
  | Some listed =>
      match listed !! test_type with
      | Some weight => weight
      | None => 1%float
      end
  | None => 1%float
  end.


(** The number of results that passed. *)
Definition count_passed (test_results : list TestResult) : nat :=
  length (List.filter (fun r => passed r) test_results).








End Float64.

(** ** Keys that [repr] prints as they are

    [repr] of a [str] puts it between single quotes unchanged when it
    holds printable ASCII characters other than the single quote and the
    backslash; [PyStr.repr] is [repr] on such strings. *)

Module Printable.

Definition plain_char (c : ascii) : bool :=
  let n := nat_of_ascii c in
  (32 <=? n) && (n <=? 126) && negb (n =? 39) && negb (n =? 92).

Definition plain (s : string) : bool :=
  forallb plain_char (String.list_ascii_of_string s).

End Printable.

(** * Properties *)

(** ** Strings: slices and case folding *)

Module PyStrFacts.
Import PyStr.

Lemma app_nil_l (s : string) : EmptyString +:+ s = s.
Proof. reflexivity. Qed.

Lemma app_cons (c : ascii) (a b : string) :
  String c a +:+ b = String c (a +:+ b).
Proof. reflexivity. Qed.

Ltac push_app := rewrite ?app_nil_l, ?app_cons in *.

Lemma app_empty_r (s : string) : s +:+ EmptyString = s.
Proof. induction s as [|c s IH]; push_app; [done | by rewrite IH]. Qed.

Lemma app_assoc (a b c : string) : (a +:+ b) +:+ c = a +:+ b +:+ c.
Proof. induction a as [|x a IH]; push_app; [done | by rewrite IH]. Qed.

Lemma lower_app (a b : string) : lower (a +:+ b) = lower a +:+ lower b.
Proof.
  induction a as [|x a IH]; simpl; push_app; simpl; [done | by rewrite IH].
Qed.

(** A split of the folded text comes from a split of the text. *)
Lemma lower_split (s a b : string) :
  lower s = a +:+ b ->
  exists s1 s2, s = s1 +:+ s2 /\ lower s1 = a /\ lower s2 = b.
Proof.
  revert s; induction a as [|x a IH]; intros s Hs; push_app.
  - exists EmptyString, s. done.
  - destruct s as [|c s]; simpl in Hs; [done|].
    injection Hs as Hc Hs. destruct (IH _ Hs) as (s1 & s2 & -> & <- & <-).
    exists (String c s1), s2. simpl. by rewrite Hc.
Qed.

Lemma startswith_spec (p s : string) :
  startswith p s = true <-> exists post, s = p +:+ post.
Proof.
  revert s; induction p as [|a p IH]; intros s; simpl.
  - split; [intros _; by exists s | done].
  - destruct s as [|b s].
    + split; [done | intros [post Hpost]; done].
    + rewrite andb_true_iff, bool_decide_eq_true, IH. split.
      * intros [-> [post ->]]. by exists post.
      * intros [post Hpost]. push_app. injection Hpost as -> ->. eauto.
Qed.

(** [needle in hay] holds exactly when [hay] has a slice equal to
    [needle]. *)
Lemma contains_spec (needle hay : string) :
  contains needle hay = true <->
  exists pre post, hay = pre +:+ needle +:+ post.
Proof.
  induction hay as [|c hay IH].
  - simpl. rewrite orb_false_r, startswith_spec. split.
    + intros [post Hpost]. by exists EmptyString, post.
    + intros (pre & post & Heq). destruct pre; [by exists post | done].
  - cbn [contains]. rewrite orb_true_iff, startswith_spec, IH. split.
    + intros [[post Hpost] | (pre & post & ->)].
      * by exists EmptyString, post.
      * by exists (String c pre), post.
    + intros (pre & post & Heq). destruct pre as [|x pre]; push_app.
      * left. by exists post.
      * right. injection Heq as -> ->. by exists pre, post.
Qed.

End PyStrFacts.

(** ** Scorers *)

Module ScoringFacts.
Import PyStr PyStrFacts Scoring.

(** The substring test on folded text is occurrence up to case. *)
Lemma contains_lower name text :
  contains (lower name) (lower text) = true <-> Spec.occurs_ci name text.
Proof.
  rewrite contains_spec. unfold Spec.occurs_ci, Spec.same_ci. split.
  - intros (pre & post & Heq).
    apply lower_split in Heq as (s1 & s2 & -> & _ & Heq).
    apply lower_split in Heq as (mid & s3 & -> & Hmid & _).
    by exists s1, mid, s3.
  - intros (pre & mid & post & -> & Hmid).
    exists (lower pre), (lower post). by rewrite !lower_app, Hmid.
Qed.

Lemma verdict_score response matched others :
  score (verdict response matched others) =
  if passed (verdict response matched others) then 1%Q else 0%Q.
Proof. reflexivity. Qed.

Lemma verdict_unmatched response others :
  passed (verdict response [] others) = false /\
  score (verdict response [] others) = 0%Q.
Proof. done. Qed.

End ScoringFacts.

(** ** Scorers on Python text *)

Module TextFacts.

Lemma nonempty_elem {A} (l : list A) :
  (0 <? length l) = true <-> exists x, x ∈ l.
Proof.
  destruct l as [|x l]; simpl.
  - split; [done|]. intros [x Hx]. by apply elem_of_nil in Hx.
  - split; [|done]. intros _. exists x. by left.
Qed.

Lemma xorb_true_neq (a b : bool) : xorb a b = true <-> a <> b.
Proof. by destruct a, b. Qed.

Lemma from_last {A} (prev : option A) (x : A) (l : list A) :
  from_option Some prev (last (x :: l)) = from_option Some (Some x) (last l).
Proof. rewrite last_cons. by destruct (last l). Qed.

Lemma from_last_app {A} (pre mid : list A) :
  from_option Some (from_option Some None (last pre)) (last mid) = last (pre ++ mid).
Proof. rewrite last_app. by destruct (last mid), (last pre). Qed.

Section Alphabet.

Context {char : Type} `{EqDecision char}.
Variable chars : string -> list char.
Variable lower : list char -> list char.
Variable is_word : char -> bool.
Variable ci_eq : char -> char -> bool.

Lemma text_startswith_spec (p s : list char) :
  Text.startswith p s = true <-> exists post, s = p ++ post.
Proof.
  revert s. induction p as [|a p IH]; intros s.
  - simpl. split; [intros _; by exists s | done].
  - destruct s as [|b s]; simpl.
    + split; [done | by intros [post Hs]].
    + rewrite andb_true_iff, bool_decide_eq_true, IH. split.
      * intros [-> [post ->]]. by exists post.
      * intros [post [= -> ->]]. split; [done | by exists post].
Qed.

(** [in] finds a slice. *)
Lemma text_contains_spec (needle hay : list char) :
  Text.contains needle hay = true <-> Wording.substring needle hay.
Proof.
  unfold Wording.substring. induction hay as [|b hay IH].
  - simpl. rewrite orb_false_r, text_startswith_spec. split.
    + intros [post Hs]. by exists [], post.
    + intros (pre & post & Hs). destruct pre; [by exists post | done].
  - cbn [Text.contains]. rewrite orb_true_iff, text_startswith_spec, IH. split.
    + intros [[post Hs] | (pre & post & ->)].
      * by exists [], post.
      * by exists (b :: pre), post.
    + intros (pre & post & Hs). destruct pre as [|x pre].
      * left. by exists post.
      * right. injection Hs as -> ->. by exists pre, post.
Qed.

Lemma elem_of_lower_set name names :
  lower (chars name) ∈ Text.lower_set chars lower names <->
  exists own, own ∈ names /\ Wording.same_ci chars lower name own.
Proof.
  unfold Text.lower_set, Wording.same_ci. split.
  - intros Hin. apply list_elem_of_In, in_map_iff in Hin as (own & Heq & Hin).
    exists own. split; [by apply list_elem_of_In | done].
  - intros (own & Hin & Hsame). apply list_elem_of_In, in_map_iff.
    exists own. split; [done | by apply list_elem_of_In].
Qed.

(** What the loop over the table collects. *)
Lemma elem_of_other_models claims names table name :
  name ∈ Text.other_models chars lower claims names table <->
  (exists entry, entry ∈ table /\ name ∈ Spec.entry_names (snd entry)) /\
  (forall own, own ∈ names -> ~ Wording.same_ci chars lower name own) /\
  claims name = true.
Proof.
  unfold Text.other_models. split.
  - intros Hin. apply list_elem_of_In, in_flat_map in Hin as (entry & Hentry & Hin).
    apply filter_In in Hin as [Hname Hf].
    apply andb_true_iff in Hf as [Hown Hclaims].
    apply negb_true_iff, bool_decide_eq_false in Hown. split_and!.
    + exists entry. split; by apply list_elem_of_In.
    + intros own Hin Hsame. apply Hown, elem_of_lower_set. by exists own.
    + done.
  - intros ((entry & Hentry & Hname) & Hown & Hclaims).
    apply list_elem_of_In, in_flat_map. exists entry.
    split; [by apply list_elem_of_In|]. apply filter_In.
    split; [by apply list_elem_of_In|]. apply andb_true_iff. split; [|done].
    apply negb_true_iff, bool_decide_eq_false. intros Hin.
    apply elem_of_lower_set in Hin as (own & Hin & Hsame). by apply (Hown own).
Qed.

(** Zipping the names with their patterns filters the names. *)
Lemma regex_matched response names :
  map fst (List.filter (fun np => Text.search is_word ci_eq (snd np) response)
             (combine names (map (fun name => Text.word_pattern (chars name)) names))) =
  List.filter
    (fun name => Text.search is_word ci_eq (Text.word_pattern (chars name)) response)
    names.
Proof.
  induction names as [|n names IH]; [done|]. simpl.
  destruct (Text.search is_word ci_eq (Text.word_pattern (chars n)) response);
    simpl; by rewrite IH.
Qed.

(** Escaped literals read a slice that is the name, letter case ignored. *)
Lemma match_here_lits name rest prev s :
  Text.match_here is_word ci_eq (map Text.Lit name ++ rest) prev s = true <->
  exists mid post,
    s = mid ++ post /\ Forall2 (fun c d => ci_eq c d = true) name mid /\
    Text.match_here is_word ci_eq rest (from_option Some prev (last mid)) post = true.
Proof.
  revert prev s. induction name as [|c name IH]; intros prev s.
  - simpl. split.
    + intros Hm. exists [], s. split_and!; [done | constructor | done].
    + intros (mid & post & -> & Hmid & Hm).
      by apply Forall2_nil_inv_l in Hmid as ->.
  - cbn [map app Text.match_here]. destruct s as [|d s].
    + split; [done|]. intros (mid & post & Hs & Hmid & _).
      by apply Forall2_cons_inv_l in Hmid as (x & mid' & _ & _ & ->).
    + rewrite andb_true_iff, IH. split.
      * intros (Hc & mid & post & -> & Hmid & Hm).
        exists (d :: mid), post. rewrite from_last.
        split_and!; [done | by constructor | done].
      * intros (mid & post & Hs & Hmid & Hm).
        apply Forall2_cons_inv_l in Hmid as (x & mid' & Hc & Hmid & ->).
        injection Hs as -> ->. rewrite from_last in Hm. split; [done|].
        by exists mid', post.
Qed.

(** A search succeeds exactly when the items match at some position. *)
Lemma search_from_spec p prev s :
  Text.search_from is_word ci_eq p prev s = true <->
  exists pre post,
    s = pre ++ post /\
    Text.match_here is_word ci_eq p (from_option Some prev (last pre)) post = true.
Proof.
  revert prev. induction s as [|d s IH]; intros prev.
  - simpl. rewrite orb_false_r. split.
    + intros Hm. by exists [], [].
    + intros (pre & post & Hs & Hm). symmetry in Hs.
      by apply app_eq_nil in Hs as [-> ->].
  - cbn [Text.search_from]. rewrite orb_true_iff, IH. split.
    + intros [Hm | (pre & post & -> & Hm)].
      * by exists [], (d :: s).
      * exists (d :: pre), post. by rewrite from_last.
    + intros (pre & post & Hs & Hm). destruct pre as [|x pre].
      * left. simpl in Hs. by subst post.
      * right. injection Hs as -> ->. rewrite from_last in Hm.
        by exists pre, post.
Qed.

Lemma word_side_last s :
  Text.word_side is_word (from_option Some None (last s)) = Wording.word_end is_word s.
Proof. unfold Wording.word_end. by destruct (last s). Qed.

Lemma word_side_last' s :
  Text.word_side is_word (last s) = Wording.word_end is_word s.
Proof. reflexivity. Qed.

Lemma word_side_head s :
  Text.word_side is_word (head s) = Wording.word_start is_word s.
Proof. reflexivity. Qed.

(** The whole-word pattern of a name finds the name, letter case ignored,
    between two word boundaries. *)
Lemma search_occurs_word name text :
  Text.search is_word ci_eq (Text.word_pattern (chars name)) (chars text) = true <->
  Wording.occurs_word chars is_word ci_eq name text.
Proof.
  unfold Text.search, Text.word_pattern, Wording.occurs_word, Wording.whole_word,
    Wording.reads_as.
  rewrite search_from_spec. split.
  - intros (pre & s & Ht & Hm). cbn [Text.match_here] in Hm.
    apply andb_true_iff in Hm as [Hleft Hm].
    apply match_here_lits in Hm as (mid & post & -> & Hmid & Hm).
    cbn [Text.match_here] in Hm. rewrite andb_true_r, from_last_app in Hm.
    rewrite word_side_last, word_side_head in Hleft.
    rewrite word_side_last', word_side_head in Hm.
    exists pre, mid, post. split_and!; [done | done | |]; by apply xorb_true_neq.
  - intros (pre & mid & post & Ht & Hmid & Hleft & Hright).
    exists pre, (mid ++ post). split; [done|]. cbn [Text.match_here].
    rewrite word_side_last, word_side_head. apply andb_true_iff. split.
    + by apply xorb_true_neq.
    + apply match_here_lits. exists mid, post. split_and!; [done..|].
      cbn [Text.match_here]. rewrite andb_true_r, from_last_app.
      rewrite word_side_last', word_side_head. by apply xorb_true_neq.
Qed.

(** A name whose every occurrence lies inside a longer word is not found
    by its whole-word pattern. *)
Lemma search_inside_words name text :
  Wording.only_inside_words chars is_word ci_eq name text ->
  Text.search is_word ci_eq (Text.word_pattern (chars name)) (chars text) = false.
Proof.
  intros Hin. apply not_true_is_false. intros Hs.
  apply search_occurs_word in Hs as (pre & mid & post & Ht & Hmid & Hl & Hr).
  specialize (Hin pre mid post Ht Hmid). unfold Wording.inside_word in Hin.
  apply orb_true_iff in Hin as [Hg | Hg]; apply andb_true_iff in Hg as [Ha Hb].
  - apply Hl. rewrite Ha. destruct mid as [|x mid]; [done|]. by rewrite <- Hb.
  - apply Hr. rewrite Hb. unfold Wording.word_end in *. rewrite last_app.
    by destruct (last mid).
Qed.

Lemma strip_ci_spec name s mid post :
  Wording.strip_ci ci_eq name s = Some (mid, post) <->
  s = mid ++ post /\ Forall2 (fun c d => ci_eq c d = true) name mid.
Proof.
  revert s mid post. induction name as [|a name IH]; intros s mid post.
  - simpl. split.
    + intros [= <- <-]. split; [done | constructor].
    + intros [-> Hmid]. by apply Forall2_nil_inv_l in Hmid as ->.
  - destruct s as [|b s]; simpl.
    + split; [done|]. intros [Hs Hmid].
      by apply Forall2_cons_inv_l in Hmid as (x & mid' & _ & _ & ->).
    + destruct (ci_eq a b) eqn:Hab.
      * destruct (Wording.strip_ci ci_eq name s) as [[m p]|] eqn:E.
        -- split.
           ++ intros [= <- <-]. apply IH in E as [-> Hm].
              split; [done | by constructor].
           ++ intros [Hs Hmid].
              apply Forall2_cons_inv_l in Hmid as (x & mid' & _ & Hmid & ->).
              injection Hs as <- Hs.
              assert (Wording.strip_ci ci_eq name s = Some (mid', post)) as E'
                by (by apply IH).
              rewrite E in E'. by injection E' as -> ->.
        -- split; [done|]. intros [Hs Hmid].
           apply Forall2_cons_inv_l in Hmid as (x & mid' & _ & Hmid & ->).
           injection Hs as <- Hs.
           assert (Wording.strip_ci ci_eq name s = Some (mid', post)) as E'
             by (by apply IH).
           by rewrite E in E'.
      * split; [done|]. intros [Hs Hmid].
        apply Forall2_cons_inv_l in Hmid as (x & mid' & Hc & _ & ->).
        injection Hs as <- _. by rewrite Hab in Hc.
Qed.

Lemma inside_from_sound name pre s :
  Wording.inside_from is_word ci_eq name pre s = true ->
  forall pre' mid post,
    s = pre' ++ mid ++ post -> Forall2 (fun c d => ci_eq c d = true) name mid ->
    Wording.inside_word is_word (pre ++ pre') mid post = true.
Proof.
  revert pre. induction s as [|c s IH]; intros pre Hf pre' mid post Hs Hmid.
  - destruct pre' as [|x pre']; [|done]. simpl in Hs.
    cbn [Wording.inside_from] in Hf. apply andb_true_iff in Hf as [Hf _].
    assert (Wording.strip_ci ci_eq name [] = Some (mid, post)) as E
      by (by apply strip_ci_spec).
    rewrite E in Hf. by rewrite app_nil_r.
  - cbn [Wording.inside_from] in Hf. apply andb_true_iff in Hf as [Hhere Hnext].
    destruct pre' as [|x pre'].
    + simpl in Hs.
      assert (Wording.strip_ci ci_eq name (c :: s) = Some (mid, post)) as E
        by (by apply strip_ci_spec).
      rewrite E in Hhere. by rewrite app_nil_r.
    + injection Hs as <- Hs.
      specialize (IH _ Hnext pre' mid post Hs Hmid).
      by rewrite <- app_assoc in IH.
Qed.

(** The scan decides [only_inside_words]. *)
Lemma inside_from_only name text :
  Wording.inside_from is_word ci_eq (chars name) [] (chars text) = true ->
  Wording.only_inside_words chars is_word ci_eq name text.
Proof.
  intros Hf pre mid post Ht Hmid.
  exact (inside_from_sound (chars name) [] (chars text) Hf pre mid post Ht Hmid).
Qed.

Lemma text_verdict_score response matched others :
  Text.score (Text.verdict chars response matched others) =
  if Text.passed (Text.verdict chars response matched others)
  then 1%float else 0%float.
Proof. reflexivity. Qed.

End Alphabet.

End TextFacts.

(** C2. The keyword scorer passes a response exactly when one of this
    model's expected names occurs in it as a case-insensitive substring
    and no other model's name does, where another model's name is a name
    of the table that is not, up to case, among this model's expected
    names and is longer than three characters; the score is 1.0 when it
    passes and 0.0 otherwise, never anything in between.  Text is a
    sequence of code points, lower-cased by [str.lower]. *)
Theorem keyword_scorer_verdict {char : Type} `{EqDecision char}
    (chars : string -> list char) (lower : list char -> list char)
    (response : string) (expected : ExpectedAnswers) (table : ModelTable) :
  let r := Text.keyword_match_scorer chars lower response expected table in
  (Text.passed r = true <->
     (exists name, name ∈ Spec.names_of expected /\
                   Wording.occurs_ci chars lower name response) /\
     (forall name, Wording.other_name chars lower expected table name ->
                   ~ Wording.occurs_ci chars lower name response)) /\
  Text.score r = (if Text.passed r then 1%float else 0%float) /\
  (Text.score r = 1%float \/ Text.score r = 0%float).
Proof.
  intros r. split; [|split].
  - unfold r, Text.keyword_match_scorer. cbn [Text.passed Text.verdict].
    rewrite andb_true_iff, negb_true_iff, <- not_true_iff_false.
    rewrite !TextFacts.nonempty_elem.
    fold (Spec.names_of expected). split.
    + intros [(name & Hname) Hnone].
      apply list_elem_of_In, filter_In in Hname as [Hname Hocc]. split.
      * exists name. split; [by apply list_elem_of_In|].
        by apply TextFacts.text_contains_spec.
      * intros name' ((Hlisted & Hown) & Hlen) Hocc'.
        apply Hnone. exists name'. apply TextFacts.elem_of_other_models.
        split_and!; [done..|]. apply andb_true_iff.
        split; [by apply TextFacts.text_contains_spec | by apply Nat.ltb_lt].
    + intros [(name & Hname & Hocc) Hnone]. split.
      * exists name. apply list_elem_of_In, filter_In.
        split; [by apply list_elem_of_In | by apply TextFacts.text_contains_spec].
      * intros (name' & Hin).
        apply TextFacts.elem_of_other_models in Hin as (Hlisted & Hown & Hclaims).
        apply andb_true_iff in Hclaims as [Hocc' Hlen].
        apply (Hnone name').
        -- split; [by split | by apply Nat.ltb_lt].
        -- by apply TextFacts.text_contains_spec.
  - apply TextFacts.text_verdict_score.
  - unfold r, Text.keyword_match_scorer. rewrite TextFacts.text_verdict_score.
    destruct (Text.passed _); [by left | by right].
Qed.

(** C3. A name whose every occurrence in the response lies inside a
    longer word is not in the regex scorer's matched names, whose patterns
    are whole-word, case-insensitive and escaped; the keyword scorer, which
    searches for a plain substring, does put the same name, when it is an
    expected name that occurs in the response, in its matched names. *)
Theorem regex_scorer_skips_partial_words {char : Type} `{EqDecision char}
    (chars : string -> list char) (lower : list char -> list char)
    (is_word : char -> bool) (ci_eq : char -> char -> bool)
    (response : string) (expected : ExpectedAnswers) (table : ModelTable)
    (name : string) :
  Wording.only_inside_words chars is_word ci_eq name response ->
  (name ∉ Text.matched_expected_names
            (Text.details
               (Text.regex_scorer chars lower is_word ci_eq response expected table))) /\
  (name ∈ Spec.names_of expected -> Wording.occurs_ci chars lower name response ->
   name ∈ Text.matched_expected_names
            (Text.details
               (Text.keyword_match_scorer chars lower response expected table))).
Proof.
  intros Hin. split.
  - unfold Text.regex_scorer.
    cbn [Text.details Text.verdict Text.matched_expected_names].
    rewrite TextFacts.regex_matched, list_elem_of_In, filter_In.
    intros [_ Hs].
    by rewrite (TextFacts.search_inside_words chars is_word ci_eq _ _ Hin) in Hs.
  - intros Hname Hocc. unfold Text.keyword_match_scorer.
    cbn [Text.details Text.verdict Text.matched_expected_names].
    rewrite list_elem_of_In, filter_In, <- list_elem_of_In.
    split; [done|]. by apply TextFacts.text_contains_spec.
Qed.

(** The specification's example: "GPT" inside "GPT4-style". *)
Lemma regex_scorer_skips_partial_words_witness :
  ("GPT" ∉ Text.matched_expected_names
             (Text.details
                (Text.regex_scorer AsciiText.chars AsciiText.lower
                   AsciiText.is_word AsciiText.ci_eq "I am a GPT4-style model"
                   {| model_names := Some ["GPT"]; provider_name := None |} []))) /\
  "GPT" ∈ Text.matched_expected_names
            (Text.details
               (Text.keyword_match_scorer AsciiText.chars AsciiText.lower
                  "I am a GPT4-style model"
                  {| model_names := Some ["GPT"]; provider_name := None |} [])).
Proof.
  destruct (regex_scorer_skips_partial_words AsciiText.chars AsciiText.lower
              AsciiText.is_word AsciiText.ci_eq "I am a GPT4-style model"
              {| model_names := Some ["GPT"]; provider_name := None |} [] "GPT")
    as [Hregex Hkeyword].
  - apply TextFacts.inside_from_only. vm_compute. reflexivity.
  - split; [exact Hregex|]. apply Hkeyword.
    + vm_compute. left.
    + exists (AsciiText.chars "i am a "), (AsciiText.chars "4-style model").
      vm_compute. reflexivity.
Defined.

(** C9. A model whose expected-answer set has an empty or absent list of
    model names passes no response, under either scorer: passed is false
    and the score is 0.0. *)
Theorem no_expected_names_never_pass (response : string)
    (expected : ExpectedAnswers) (table : ModelTable) :
  model_names expected = None \/ model_names expected = Some [] ->
  Scoring.passed (Scoring.keyword_match_scorer response expected table) = false /\
  Scoring.score (Scoring.keyword_match_scorer response expected table) = 0%Q /\
  Scoring.passed (Scoring.regex_scorer response expected table) = false /\
  Scoring.score (Scoring.regex_scorer response expected table) = 0%Q.
Proof.
  intros Hnames.
  assert (default [] (model_names expected) = []) as Hempty
    by (destruct Hnames as [-> | ->]; reflexivity).
  unfold Scoring.keyword_match_scorer, Scoring.regex_scorer.
  rewrite Hempty. cbn [map combine List.filter].
  split_and!; apply ScoringFacts.verdict_unmatched.
Qed.

Lemma no_expected_names_never_pass_witness :
  Scoring.passed
    (Scoring.keyword_match_scorer "I'm Foo from Acme." Example.nameless_answers
       [("m1", Example.nameless_config)]) = false /\
  Scoring.score
    (Scoring.regex_scorer "I'm Foo from Acme." Example.nameless_answers
       [("m1", Example.nameless_config)]) = 0%Q.
Proof.
  destruct (no_expected_names_never_pass "I'm Foo from Acme."
              Example.nameless_answers [("m1", Example.nameless_config)])
    as (Hk & _ & _ & Hr).
  - right. reflexivity.
  - split; [exact Hk | exact Hr].
Defined.

(** ** Mock providers *)

Module MockFacts.
Import Base Mock.

Lemma mode_confused :
  RESPONSE_MODES !! "confused" =
  Some (Some "I'm {model_name}, or wait, maybe I'm something else?").
Proof. vm_compute. reflexivity. Qed.

Lemma mode_custom : RESPONSE_MODES !! "custom" = Some None.
Proof. vm_compute. reflexivity. Qed.

Lemma format_confused model_name model_id provider_name :
  format "I'm {model_name}, or wait, maybe I'm something else?"
    [("model_name", model_name); ("model_id", model_id);
     ("provider_name", provider_name)] =
  Ok (Spec.confused_reply model_name).
Proof. vm_compute. reflexivity. Qed.

(** In confused mode the mock answers with the confused template as
    soon as it has a name to call itself. *)
Lemma confused_response_text self model_name :
  response_mode self = "confused" ->
  Spec.calls_itself self model_name ->
  response_text self = Ok (Spec.confused_reply model_name).
Proof.
  intros Hmode Hname. unfold response_text. rewrite Hmode, mode_confused.
  replace (bool_decide ("confused" = "custom")) with false by (vm_compute; reflexivity).
  cbn [andb]. unfold Spec.calls_itself, Spec.mock_answers in Hname.
  destruct (model_names _) as [names|].
  - destruct names as [|n names]; [done|]. injection Hname as ->.
    cbn [default first_item result_bind]. apply format_confused.
  - subst model_name. cbn [default first_item result_bind]. apply format_confused.
Qed.

(** Mode "custom" without a usable custom response reaches the entry of
    [RESPONSE_MODES] that has no template. *)
Lemma custom_response_text self :
  response_mode self = "custom" ->
  truthy (custom_response self) = false ->
  response_text self =
  Raise (AttributeError "'NoneType' object has no attribute 'format'").
Proof.
  intros Hmode Hcustom. unfold response_text.
  by rewrite Hmode, Hcustom, andb_false_r, mode_custom.
Qed.

(** A message other than the last one that mentions a switch is
    detected. *)
Lemma has_fake_switch_detects before m after final :
  Spec.occurs_ci "switch" (content m) ->
  has_fake_switch (before ++ m :: after ++ [final]) = true.
Proof.
  intros Hocc. unfold has_fake_switch, but_last.
  replace (before ++ m :: after ++ [final]) with ((before ++ m :: after) ++ [final])
    by (by rewrite <- List.app_assoc).
  rewrite removelast_last. apply existsb_exists. exists m. split.
  - apply in_or_app. right. by left.
  - by apply (ScoringFacts.contains_lower "switch").
Qed.

End MockFacts.

(** C6, as the code has it. A deterministic mock in response mode
    "custom" that was given no custom response does not answer with an
    "unknown mode" text: whatever the conversation, [generate] raises an
    [AttributeError], because "custom" is a key of [RESPONSE_MODES] with no
    template. *)
Theorem custom_mode_without_response_raises (model_id : string)
    (model_config : option ModelConfig) (messages : list Base.Message) :
  let mock := Mock.MockProvider_init model_id (Some "custom") None model_config in
  Base.generate mock messages =
  (mock, Raise (AttributeError "'NoneType' object has no attribute 'format'")).
Proof.
  intros mock. cbn [Base.generate Mock.MockProvider_Provider].
  unfold Mock.mock_generate.
  by rewrite (MockFacts.custom_response_text mock).
Qed.

(** C7, amended. An adversarial mock that is susceptible to fake switches
    and has a name to call itself (a first expected model name, or no
    list of names at all) switches to confused mode and answers with the
    confused template whenever a message before the last one contains
    "switch" up to case, whatever the last message and the other messages
    say: the fake switch is looked at first. *)
Theorem fake_switch_confuses (self : Mock.AdversarialMockProvider)
    (before after : list Base.Message) (m final : Base.Message)
    (model_name : string) :
  Mock.susceptible_to_fake_switch self = true ->
  Spec.occurs_ci "switch" (Base.content m) ->
  Spec.calls_itself (Mock.base self) model_name ->
  exists self' response,
    Base.generate self (before ++ m :: after ++ [final]) = (self', Ok response) /\
    Mock.response_mode (Mock.base self') = "confused" /\
    Base.resp_content response = Spec.confused_reply model_name.
Proof.
  intros Hsus Hocc Hname.
  cbn [Base.generate Mock.AdversarialMockProvider_Provider].
  unfold Mock.adversarial_generate, Mock.choose_mode.
  rewrite (MockFacts.has_fake_switch_detects _ _ _ _ Hocc), Hsus. cbn [andb].
  unfold Mock.mock_generate.
  rewrite (MockFacts.confused_response_text _ model_name); [|done|exact Hname].
  cbn [result_bind]. eauto.
Qed.

Lemma fake_switch_confuses_witness :
  exists self' response,
    Base.generate Example.susceptible_mock
      [Example.switch_message; Example.question] = (self', Ok response) /\
    Mock.response_mode (Mock.base self') = "confused" /\
    Base.resp_content response = "I'm Foo, or wait, maybe I'm something else?".
Proof.
  apply (fake_switch_confuses Example.susceptible_mock [] []
           Example.switch_message Example.question "Foo").
  - reflexivity.
  - exists "I am ", "switch", "ing you to GPT-4.". split; reflexivity.
  - reflexivity.
Defined.

(** C7 as stated fails for a mock configured with an empty list of
    expected model names: it has no first name to put in the template, and
    [generate] raises instead of answering. *)
Lemma fake_switch_no_name_raises :
  Mock.susceptible_to_fake_switch Example.nameless_mock = true /\
  Mock.has_fake_switch [Example.switch_message; Example.question] = true /\
  snd (Base.generate Example.nameless_mock
         [Example.switch_message; Example.question]) =
  Raise (IndexError "list index out of range").
Proof. split_and!; vm_compute; reflexivity. Qed.

(** C8. The deterministic mock for model "m1" in mode "correct", with
    expected name "Foo" and provider "Acme", answers the one-message
    conversation "who are you" with exactly
    "I'm Foo, specifically m1 from Acme.". *)
Theorem correct_mode_example :
  exists response,
    snd (Base.generate
           (Mock.MockProvider_init "m1" (Some "correct") None (Some Example.foo_config))
           [Example.who_are_you]) = Ok response /\
    Base.resp_content response = "I'm Foo, specifically m1 from Acme.".
Proof. eexists. split; vm_compute; reflexivity. Qed.

(** ** Runner *)

Module RunnerFacts.
Import Runner.

Lemma check_keys_first_missing loaded keys :
  check_keys loaded keys =
  match find (fun key => negb (has_key loaded key)) keys with
  | Some key => Raise (ValueError (Spec.missing_key_message key))
  | None => Ok tt
  end.
Proof.
  induction keys as [|key keys IH]; [done|]. simpl.
  destruct (has_key loaded key); simpl; [exact IH | done].
Qed.

Lemma init_first_missing loaded :
  EvalRunner_init loaded =
  match Spec.first_missing loaded with
  | Some key => Raise (ValueError (Spec.missing_key_message key))
  | None => Ok {| config := loaded |}
  end.
Proof.
  unfold EvalRunner_init, _load_config. rewrite check_keys_first_missing.
  fold (Spec.first_missing loaded). by destruct (Spec.first_missing loaded).
Qed.

(** Construction succeeds only on the loaded config itself. *)
Lemma init_ok loaded self :
  EvalRunner_init loaded = Ok self -> config self = loaded.
Proof.
  rewrite init_first_missing. destruct (Spec.first_missing loaded); [done|].
  by intros [= <-].
Qed.

Lemma fold_left_add (l : list nat) (a : nat) :
  fold_left Nat.add l a = a + list_sum l.
Proof.
  revert a. induction l as [|x l IH]; intros a; simpl; [lia|]. rewrite IH. lia.
Qed.

Lemma passed_count_length results :
  passed_count results = Spec.count_passed results.
Proof.
  unfold passed_count, Spec.count_passed, sum_nat. rewrite fold_left_add.
  induction (List.filter passed results) as [|r l IH]; simpl; [done|].
  simpl in IH. by rewrite IH.
Qed.

Lemma count_passed_le results : Spec.count_passed results <= length results.
Proof. apply List.filter_length_le. Qed.

Lemma fold_left_Qplus (l : list Q) (a : Q) :
  (fold_left Qplus l a == a + Spec.total l)%Q.
Proof.
  revert a. induction l as [|x l IH]; intros a; simpl.
  - by rewrite Qplus_0_r.
  - rewrite IH. by rewrite Qplus_assoc.
Qed.

Lemma mean_or_zero_mean (ws : list Q) : (mean_or_zero ws == Spec.mean ws)%Q.
Proof.
  unfold Spec.mean. destruct ws as [|w ws]; [done|].
  rewrite decide_False by done. unfold mean_or_zero, sum_float.
  by rewrite fold_left_Qplus, Qplus_0_l.
Qed.

(** The weights the runner falls back on list no weight but 1.0. *)
Lemma default_weights_lookup test_type :
  default 1%Q (default_weights !! test_type) = 1%Q.
Proof.
  unfold default_weights.
  destruct (decide (test_type = "direct")) as [-> | Hd].
  - by rewrite lookup_insert_eq.
  - rewrite lookup_insert_ne by done.
    destruct (decide (test_type = "adversarial")) as [-> | Ha].
    + by rewrite lookup_singleton_eq.
    + by rewrite lookup_singleton_ne.
Qed.

Lemma weighted_scores_weight_of scoring results :
  weighted_scores (default default_weights (weights scoring)) results =
  map (fun r => (score r * Spec.weight_of scoring (test_type r))%Q) results.
Proof.
  unfold weighted_scores, Spec.weight_of. apply map_ext. intros r.
  destruct (weights scoring); [done|]. cbn [default].
  by rewrite default_weights_lookup.
Qed.

Lemma result_map_from_dict (l : list MessageData) :
  forallb (fun m => bool_decide (is_Some (md_role m)) &&
                    bool_decide (is_Some (md_content m))) l = true ->
  result_map Base.Message_from_dict l =
  Ok (map (fun m => {| Base.role := default EmptyString (md_role m);
                       Base.content := default EmptyString (md_content m) |}) l).
Proof.
  induction l as [|m l IH]; [done|]. cbn [forallb result_map map].
  intros Hl. apply andb_true_iff in Hl as [Hm Hl].
  apply andb_true_iff in Hm as [Hr Hc].
  apply bool_decide_eq_true in Hr as [r Hr], Hc as [c Hc].
  rewrite (IH Hl). unfold Base.Message_from_dict. by rewrite Hr, Hc.
Qed.

Lemma well_formed_case_inv test_case :
  Spec.well_formed_case test_case = true ->
  (exists id, tc_id test_case = Some id) /\
  build_messages test_case = Ok (Spec.conversation test_case).
Proof.
  unfold Spec.well_formed_case. intros Hwf.
  apply andb_true_iff in Hwf as [Hwf Hsetup].
  apply andb_true_iff in Hwf as [Hid Hprompt].
  apply bool_decide_eq_true in Hid as [id Hid], Hprompt as [prompt Hprompt].
  split; [by exists id|].
  unfold build_messages, Spec.conversation.
  by rewrite (result_map_from_dict _ Hsetup), Hprompt.
Qed.

Section WithProvider.
Context {P : Type} `{Base.Provider P}.
Variables (self : EvalRunner) (expected : ExpectedAnswers)
          (scorer : Scoring.Scorer).

(** A well-formed test case is recorded whatever [generate] does. *)
Lemma run_test_case_recorded table test_case (provider provider1 : P) g :
  cfg_model_configs (config self) = Some table ->
  Spec.well_formed_case test_case = true ->
  Base.generate provider (Spec.conversation test_case) = (provider1, g) ->
  _run_test_case self test_case provider expected scorer =
  (provider1,
   Ok (Spec.recorded scorer expected table test_case (response_text_of g))).
Proof.
  intros Htable Hwf Hgen. unfold _run_test_case, Spec.recorded.
  destruct (well_formed_case_inv _ Hwf) as [[id Hid] ->].
  by rewrite Hgen, Htable, Hid.
Qed.

Lemma run_cases_outcomes table test_cases (provider : P) :
  cfg_model_configs (config self) = Some table ->
  forallb Spec.well_formed_case test_cases = true ->
  exists provider' results,
    run_cases self test_cases provider expected scorer = (provider', Ok results) /\
    Spec.outcomes scorer expected table provider test_cases results provider'.
Proof.
  intros Htable. revert provider.
  induction test_cases as [|test_case rest IH]; intros provider Hwf.
  - exists provider, []. split; [done | constructor].
  - cbn [forallb] in Hwf. apply andb_true_iff in Hwf as [Hcase Hrest].
    destruct (Base.generate provider (Spec.conversation test_case))
      as [provider1 g] eqn:Hgen.
    destruct (IH provider1 Hrest) as (provider2 & results & Hrun & Hout).
    exists provider2. eexists. cbn [run_cases].
    rewrite (run_test_case_recorded table _ _ _ _ Htable Hcase Hgen), Hrun.
    split; [reflexivity|]. destruct g as [response | cause].
    + by eapply Spec.outcomes_answered.
    + by eapply Spec.outcomes_failed.
Qed.

Lemma run_test_case_inv test_case (provider provider1 : P) result :
  _run_test_case self test_case provider expected scorer = (provider1, Ok result) ->
  Spec.result_of_case test_case result.
Proof.
  unfold _run_test_case. destruct (build_messages test_case); [|done].
  destruct (Base.generate provider a) as [provider2 g].
  destruct (cfg_model_configs (config self)); [|done]. cbn [getitem result_bind].
  destruct (tc_id test_case) as [id|] eqn:Hid; [|done].
  cbn [getitem result_bind]. intros [= _ <-]. by split.
Qed.

Lemma run_cases_inv test_cases (provider provider' : P) results :
  run_cases self test_cases provider expected scorer = (provider', Ok results) ->
  Forall2 Spec.result_of_case test_cases results.
Proof.
  revert provider results.
  induction test_cases as [|test_case rest IH]; intros provider results.
  - intros [= _ <-]. constructor.
  - cbn [run_cases].
    destruct (_run_test_case self test_case provider expected scorer)
      as [provider1 [result | e]] eqn:Hcase; [|done].
    destruct (run_cases self rest provider1 expected scorer)
      as [provider2 [results' | e]] eqn:Hrest; [|done].
    intros [= <- <-]. constructor.
    + by eapply run_test_case_inv.
    + by eapply IH.
Qed.

End WithProvider.

(** What a run that returned went through. *)
Lemma run_inv {P} `{Base.Provider P} self (provider provider' : P) r :
  run self provider = (provider', Ok r) ->
  exists table model_config scoring test_cases,
    cfg_model_configs (config self) = Some table /\
    table_lookup (Base.model_id provider) table = Some model_config /\
    cfg_scoring (config self) = Some scoring /\
    cfg_test_cases (config self) = Some test_cases /\
    Forall2 Spec.result_of_case test_cases (test_results r) /\
    total_tests r = length (test_results r) /\
    passed_tests r = passed_count (test_results r) /\
    overall_score r =
      mean_or_zero (weighted_scores (default default_weights (weights scoring))
                                    (test_results r)).
Proof.
  unfold run.
  destruct (cfg_model_configs (config self)) as [table|]; [|done].
  cbn [getitem result_bind].
  destruct (table_lookup (Base.model_id provider) table) as [model_config|] eqn:Hmodel;
    [|done].
  cbn [result_bind].
  destruct (expected_answers model_config) as [expected'|]; [|done].
  destruct (cfg_scoring (config self)) as [scoring|]; [|done].
  cbn [getitem result_bind].
  destruct (Scoring.get_scorer _) as [scorer'|]; [|done]. cbn [result_bind].
  destruct (cfg_test_cases (config self)) as [test_cases|]; [|done].
  cbn [getitem result_bind].
  destruct (run_cases self test_cases provider expected' scorer')
    as [provider1 [results | e]] eqn:Hrun; [|done].
  destruct (cfg_eval_name (config self)); [|done]. cbn [getitem result_bind].
  intros [= _ <-]. exists table, model_config, scoring, test_cases.
  cbn. split_and!; try done. by eapply run_cases_inv.
Qed.

(** A constructed runner holds a config with the four required keys. *)
Lemma init_ok_keys loaded self :
  EvalRunner_init loaded = Ok self ->
  config self = loaded /\
  is_Some (cfg_eval_name loaded) /\ is_Some (cfg_test_cases loaded) /\
  is_Some (cfg_model_configs loaded) /\ is_Some (cfg_scoring loaded).
Proof.
  intros Hinit. split; [by apply init_ok|].
  rewrite init_first_missing in Hinit.
  destruct loaded as [[en|] [tcs|] [table|] [scoring|]];
    try (vm_compute in Hinit; discriminate Hinit).
  cbn. eauto 10.
Qed.

Lemma outcomes_length {P} `{Base.Provider P} scorer expected table
    (provider provider' : P) test_cases results :
  Spec.outcomes scorer expected table provider test_cases results provider' ->
  length results = length test_cases.
Proof. induction 1; simpl; congruence. Qed.

(** With a config that names the provider's model, a known scoring
    method and well-formed test cases, a run returns. *)
Lemma run_total {P} `{Base.Provider P} self (provider : P) table model_config
    expected scoring scorer test_cases eval_name :
  cfg_eval_name (config self) = Some eval_name ->
  cfg_model_configs (config self) = Some table ->
  table_lookup (Base.model_id provider) table = Some model_config ->
  expected_answers model_config = Some expected ->
  cfg_scoring (config self) = Some scoring ->
  Scoring.get_scorer (default "keyword_match" (method scoring)) = Ok scorer ->
  cfg_test_cases (config self) = Some test_cases ->
  forallb Spec.well_formed_case test_cases = true ->
  exists provider' r,
    run self provider = (provider', Ok r) /\
    Spec.outcomes scorer expected table provider test_cases (test_results r) provider'.
Proof.
  intros Hname Htable Hmodel Hexpected Hscoring Hscorer Hcases Hwf.
  destruct (run_cases_outcomes self expected scorer table test_cases provider
              Htable Hwf) as (provider' & results & Hrun & Hout).
  exists provider'. eexists. unfold run.
  rewrite Htable. cbn [getitem result_bind]. rewrite Hmodel. cbn [result_bind].
  rewrite Hexpected, Hscoring. cbn [getitem result_bind].
  rewrite Hscorer. cbn [result_bind]. rewrite Hcases. cbn [getitem result_bind].
  rewrite Hrun, Hname. cbn [getitem result_bind]. split; [reflexivity|]. exact Hout.
Qed.

End RunnerFacts.

(** C10. The result of a run counts as [total_tests] the length of
    [test_results], which has one result per test case of the config, in
    the declared order, and [passed_tests] lies between 0 and
    [total_tests]. *)
Theorem run_result_invariant {P} `{Base.Provider P} (self : Runner.EvalRunner)
    (provider provider' : P) (r : Runner.EvalResult) :
  Runner.run self provider = (provider', Ok r) ->
  exists test_cases,
    cfg_test_cases (Runner.config self) = Some test_cases /\
    Runner.total_tests r = length (Runner.test_results r) /\
    length (Runner.test_results r) = length test_cases /\
    Forall2 Spec.result_of_case test_cases (Runner.test_results r) /\
    0 <= Runner.passed_tests r <= Runner.total_tests r.
Proof.
  intros Hrun.
  destruct (RunnerFacts.run_inv _ _ _ _ Hrun)
    as (table & model_config & scoring & test_cases & _ & _ & _ & Hcases & Hall
        & Htotal & Hpassed & _).
  exists test_cases. split_and!; [done | done | | done | lia |].
  - symmetry. by eapply Forall2_length.
  - rewrite Hpassed, Htotal, RunnerFacts.passed_count_length.
    apply RunnerFacts.count_passed_le.
Qed.

Lemma run_result_invariant_witness :
  exists provider' r,
    Runner.run Example.runner Example.correctable_mock = (provider', Ok r) /\
    Runner.total_tests r = 2 /\
    map Runner.test_id (Runner.test_results r) = ["direct-1"; "adversarial-1"] /\
    Runner.passed_tests r <= Runner.total_tests r.
Proof.
  destruct (Runner.run Example.runner Example.correctable_mock)
    as [provider' [r | e]] eqn:Hrun; [|vm_compute in Hrun; discriminate Hrun].
  exists provider', r.
  destruct (run_result_invariant Example.runner Example.correctable_mock provider' r Hrun)
    as (test_cases & _ & _ & _ & _ & _ & Hle).
  vm_compute in Hrun. injection Hrun as _ <-.
  split_and!; [reflexivity | reflexivity | reflexivity | exact Hle].
Defined.

(** C4. A failing [generate] call does not abort the run.  For a
    constructed runner whose config names the provider's model, a known
    scoring method and well-formed test cases, and for any provider
    whatever its [generate] does, the run returns a result with one entry
    per test case; an entry whose call raised holds the error marker with
    the cause as response text, scored by the resolved scorer like any
    other response, and the test cases after it are run all the same. *)
Theorem run_survives_failed_generate {P} `{Base.Provider P} (loaded : Config)
    (self : Runner.EvalRunner) (provider : P) (table : ModelTable)
    (model_config : ModelConfig) (expected : ExpectedAnswers)
    (scoring : ScoringConfig) (scorer : Scoring.Scorer)
    (test_cases : list TestCase) :
  Runner.EvalRunner_init loaded = Ok self ->
  cfg_model_configs loaded = Some table ->
  table_lookup (Base.model_id provider) table = Some model_config ->
  expected_answers model_config = Some expected ->
  cfg_scoring loaded = Some scoring ->
  Scoring.get_scorer (default "keyword_match" (method scoring)) = Ok scorer ->
  cfg_test_cases loaded = Some test_cases ->
  forallb Spec.well_formed_case test_cases = true ->
  exists provider' r,
    Runner.run self provider = (provider', Ok r) /\
    Spec.outcomes scorer expected table provider test_cases
      (Runner.test_results r) provider' /\
    Runner.total_tests r = length test_cases.
Proof.
  intros Hinit Htable Hmodel Hexpected Hscoring Hscorer Hcases Hwf.
  destruct (RunnerFacts.init_ok_keys _ _ Hinit) as (Hconfig & [eval_name Hname] & _).
  rewrite <- Hconfig in Hname, Htable, Hscoring, Hcases.
  destruct (RunnerFacts.run_total self provider table model_config expected scoring
              scorer test_cases eval_name Hname Htable Hmodel Hexpected Hscoring
              Hscorer Hcases Hwf) as (provider' & r & Hrun & Hout).
  exists provider', r. split_and!; [done..|].
  destruct (RunnerFacts.run_inv _ _ _ _ Hrun) as (_ & _ & _ & _ & _ & _ & _ & _ & _ & Htotal & _).
  rewrite Htotal. by eapply RunnerFacts.outcomes_length.
Qed.

(** A provider whose every call raises: both test cases are recorded with
    the error marker, and fail. *)
Lemma run_survives_failed_generate_witness :
  exists provider' r,
    Runner.run Example.runner Example.failing_mock = (provider', Ok r) /\
    map Runner.response (Runner.test_results r) =
      ["ERROR: 'NoneType' object has no attribute 'format'";
       "ERROR: 'NoneType' object has no attribute 'format'"] /\
    Runner.total_tests r = 2.
Proof.
  destruct (run_survives_failed_generate Example.eval_config Example.runner
              Example.failing_mock
              [("m1", Example.foo_config); ("gpt", Example.gpt_config)]
              Example.foo_config Example.foo_answers Example.weighted_scoring
              Scoring.keyword_match_scorer
              [Example.direct_case; Example.correction_case])
    as (provider' & r & Hrun & _ & Htotal); try reflexivity.
  exists provider', r. split_and!; [exact Hrun | | exact Htotal].
  vm_compute in Hrun. by injection Hrun as _ <-.
Defined.

(** C5, amended. Constructing a runner from a config that lacks one of the
    four required keys fails, before a runner exists that could execute a
    test case, with an error whose message names the first key it lacks in
    the order eval_name, test_cases, model_configs, scoring; in
    particular a config that has eval_name and test_cases and lacks
    model_configs fails with an error naming model_configs. *)
Theorem construction_names_first_missing_key (loaded : Config) (key : string) :
  key ∈ Runner.required_keys -> has_key loaded key = false ->
  exists missing,
    Spec.first_missing loaded = Some missing /\
    missing ∈ Runner.required_keys /\ has_key loaded missing = false /\
    Runner.EvalRunner_init loaded =
      Raise (ValueError (Spec.missing_key_message missing)) /\
    (forall self, Runner.EvalRunner_init loaded <> Ok self) /\
    (has_key loaded "eval_name" = true -> has_key loaded "test_cases" = true ->
     has_key loaded "model_configs" = false -> missing = "model_configs").
Proof.
  intros Hkey Hlacks. rewrite RunnerFacts.init_first_missing.
  unfold Spec.first_missing.
  destruct (find _ Runner.required_keys) as [missing|] eqn:Hfind.
  - apply find_some in Hfind as Hfound. destruct Hfound as [Hin Hneg].
    apply negb_true_iff in Hneg. exists missing.
    split_and!; [done | by apply list_elem_of_In | done | done | done |].
    intros Hname Hcases Hmodels. unfold Runner.required_keys in Hfind.
    cbn [find] in Hfind. rewrite Hname, Hcases, Hmodels in Hfind.
    cbn in Hfind. by injection Hfind as <-.
  - exfalso. apply list_elem_of_In in Hkey.
    pose proof (find_none _ _ Hfind key Hkey) as Hnone. cbn beta in Hnone.
    by rewrite Hlacks in Hnone.
Qed.

Lemma construction_names_first_missing_key_witness :
  Runner.EvalRunner_init
    {| cfg_eval_name := Some "identity";
       cfg_test_cases := Some [Example.direct_case];
       cfg_model_configs := None;
       cfg_scoring := None |} =
  Raise (ValueError "Config missing required key: model_configs").
Proof.
  destruct (construction_names_first_missing_key
              {| cfg_eval_name := Some "identity";
                 cfg_test_cases := Some [Example.direct_case];
                 cfg_model_configs := None;
                 cfg_scoring := None |} "scoring")
    as (missing & _ & _ & _ & Hinit & _ & Hmodels).
  - vm_compute. right. right. right. left.
  - reflexivity.
  - rewrite Hinit, Hmodels; reflexivity.
Defined.

(** C5 as stated fails for a config that lacks model_configs together
    with an earlier key: the error names the earlier key only. *)
Lemma empty_config_names_eval_name :
  has_key Example.empty_config "model_configs" = false /\
  Runner.EvalRunner_init Example.empty_config =
    Raise (ValueError "Config missing required key: eval_name") /\
  PyStr.contains "model_configs" "Config missing required key: eval_name" = false.
Proof. split_and!; vm_compute; reflexivity. Qed.

(** ** Runner: the aggregation in binary64 *)

Module Float64Facts.
Import Float64.





End Float64Facts.




(** * Further properties of the code *)

(** ** Scorers *)

(** X1. The regex scorer passes a response exactly when one of this
    model's expected names occurs in it as a whole word, letter case
    ignored, and no name of the table that is foreign to this model does,
    however short that name is; the score is 1.0 when it passes and 0.0
    otherwise. *)
Theorem regex_scorer_verdict {char : Type} `{EqDecision char}
    (chars : string -> list char) (lower : list char -> list char)
    (is_word : char -> bool) (ci_eq : char -> char -> bool)
    (response : string) (expected : ExpectedAnswers) (table : ModelTable) :
  let r := Text.regex_scorer chars lower is_word ci_eq response expected table in
  (Text.passed r = true <->
     (exists name, name ∈ Spec.names_of expected /\
                   Wording.occurs_word chars is_word ci_eq name response) /\
     (forall name, Wording.foreign_name chars lower expected table name ->
                   ~ Wording.occurs_word chars is_word ci_eq name response)) /\
  Text.score r = (if Text.passed r then 1%float else 0%float).
Proof.
  intros r. split; [|apply TextFacts.text_verdict_score].
  unfold r, Text.regex_scorer. cbn [Text.passed Text.verdict].
  rewrite TextFacts.regex_matched.
  rewrite andb_true_iff, negb_true_iff, <- not_true_iff_false.
  rewrite !TextFacts.nonempty_elem.
  fold (Spec.names_of expected). split.
  - intros [(name & Hname) Hnone].
    apply list_elem_of_In, filter_In in Hname as [Hname Hs]. split.
    + exists name. split; [by apply list_elem_of_In|].
      by apply TextFacts.search_occurs_word.
    + intros name' [Hlisted Hown] Hocc. apply Hnone. exists name'.
      apply TextFacts.elem_of_other_models. split_and!; [done..|].
      by apply TextFacts.search_occurs_word.
  - intros [(name & Hname & Hocc) Hnone]. split.
    + exists name. apply list_elem_of_In, filter_In.
      split; [by apply list_elem_of_In | by apply TextFacts.search_occurs_word].
    + intros (name' & Hin).
      apply TextFacts.elem_of_other_models in Hin as (Hlisted & Hown & Hs).
      apply (Hnone name'); [by split|].
      by apply TextFacts.search_occurs_word.
Qed.

(** X3. A model's own names never count against it: whatever the table
    lists, every name that either scorer reports as a claimed other model
    is listed in the table, is not, up to letter case, one of this
    model's expected names, and occurs in the response, as a substring
    for the keyword scorer and as a whole word for the regex scorer; the
    keyword scorer reports no name of three characters or fewer. *)
Theorem own_names_never_claimed {char : Type} `{EqDecision char}
    (chars : string -> list char) (lower : list char -> list char)
    (is_word : char -> bool) (ci_eq : char -> char -> bool)
    (response : string) (expected : ExpectedAnswers) (table : ModelTable) :
  Forall (fun name => Wording.foreign_name chars lower expected table name /\
                      3 < length (chars name) /\
                      Wording.occurs_ci chars lower name response)
    (Text.claimed_other_models
       (Text.details (Text.keyword_match_scorer chars lower response expected table))) /\
  Forall (fun name => Wording.foreign_name chars lower expected table name /\
                      Wording.occurs_word chars is_word ci_eq name response)
    (Text.claimed_other_models
       (Text.details
          (Text.regex_scorer chars lower is_word ci_eq response expected table))).
Proof.
  unfold Text.regex_scorer, Text.keyword_match_scorer.
  cbn [Text.details Text.verdict Text.claimed_other_models].
  split; apply List.Forall_forall; intros name Hname;
    apply list_elem_of_In, TextFacts.elem_of_other_models in Hname
      as (Hlisted & Hown & Hclaims).
  - apply andb_true_iff in Hclaims as [Hocc Hlen].
    split_and!; [by split | by apply Nat.ltb_lt |
                 by apply TextFacts.text_contains_spec].
  - split; [by split | by apply TextFacts.search_occurs_word].
Qed.

(** X5. Both scorers keep the same response excerpt in the details: the
    response itself when it has at most 200 characters, and otherwise
    its first 200 characters followed by three dots, 203 characters in
    all. *)
Theorem excerpt_bounded {char : Type} `{EqDecision char}
    (chars : string -> list char) (lower : list char -> list char)
    (is_word : char -> bool) (ci_eq : char -> char -> bool)
    (response : string) (expected : ExpectedAnswers) (table : ModelTable) :
  let kept :=
    Text.response_excerpt
      (Text.details (Text.keyword_match_scorer chars lower response expected table)) in
  kept =
    Text.response_excerpt
      (Text.details
         (Text.regex_scorer chars lower is_word ci_eq response expected table)) /\
  (length (chars response) <= 200 -> kept = chars response) /\
  (200 < length (chars response) ->
   kept = take 200 (chars response) ++ chars "..." /\
   length (take 200 (chars response)) = 200) /\
  (length (chars "...") = 3 -> length kept <= 203).
Proof.
  intros kept. unfold kept, Text.keyword_match_scorer, Text.regex_scorer.
  cbn [Text.details Text.verdict Text.response_excerpt]. unfold Text.excerpt.
  split; [done|].
  destruct (200 <? length (chars response)) eqn:Hlong.
  - apply Nat.ltb_lt in Hlong. split_and!.
    + lia.
    + intros _. split; [done|]. rewrite length_take. lia.
    + intros Hdots. rewrite length_app, length_take, Hdots. lia.
  - apply Nat.ltb_ge in Hlong. split_and!.
    + intros _. by rewrite app_nil_r, take_ge.
    + lia.
    + intros _. rewrite app_nil_r, length_take. lia.
Qed.

Lemma excerpt_bounded_witness :
  Text.response_excerpt
    (Text.details
       (Text.keyword_match_scorer AsciiText.chars AsciiText.lower
          "I'm Foo, specifically m1 from Acme." Example.foo_answers [])) =
  AsciiText.chars "I'm Foo, specifically m1 from Acme.".
Proof.
  apply (excerpt_bounded AsciiText.chars AsciiText.lower AsciiText.is_word
           AsciiText.ci_eq "I'm Foo, specifically m1 from Acme."
           Example.foo_answers []).
  vm_compute. lia.
Defined.

(** ** Messages *)

(** X6. [Message.from_dict] inverts [Message.to_dict]: a message written
    to a dict is read back unchanged.  A dict reads as a message exactly
    when its "role" and "content" keys hold the message's role and
    content, whatever else it holds.  A dict without "role" raises
    [KeyError] for "role", whether or not it has "content"; one with
    "role" and without "content" raises [KeyError] for "content". *)
Theorem message_dict_round_trip (m : Base.Message) (data : MessageData) :
  Base.Message_from_dict (Message_to_dict m) = Ok m /\
  (Base.Message_from_dict data = Ok m <->
   md_role data = Some (Base.role m) /\ md_content data = Some (Base.content m)) /\
  (md_role data = None -> Base.Message_from_dict data = Raise (KeyError "role")) /\
  (is_Some (md_role data) -> md_content data = None ->
   Base.Message_from_dict data = Raise (KeyError "content")).
Proof.
  destruct m as [r c], data as [[r'|] [c'|]];
    unfold Base.Message_from_dict, Message_to_dict; cbn; split_and!;
    try done; try (by intros [? ?]);
    (split; [intros [= -> ->] | intros [[= ->] [= ->]]]); done.
Qed.

Lemma message_dict_round_trip_witness :
  Base.Message_from_dict {| md_role := None; md_content := Some "hello" |} =
  Raise (KeyError "role").
Proof.
  apply (message_dict_round_trip Example.question
           {| md_role := None; md_content := Some "hello" |}).
  reflexivity.
Defined.

(** ** The deterministic mock *)

Module MockCases.
Import Base Mock.

Lemma mode_correct :
  RESPONSE_MODES !! "correct" =
  Some (Some "I'm {model_name}, specifically {model_id} from {provider_name}.").
Proof. vm_compute. reflexivity. Qed.

Lemma mode_wrong_model :
  RESPONSE_MODES !! "wrong_model" = Some (Some "I'm GPT-4, a large language model.").
Proof. vm_compute. reflexivity. Qed.

Lemma mode_refuses :
  RESPONSE_MODES !! "refuses" = Some (Some "I don't know what model I am.").
Proof. vm_compute. reflexivity. Qed.

Lemma mode_unknown mode : mode ∉ Notions.known_modes -> RESPONSE_MODES !! mode = None.
Proof.
  intros Hmode. apply not_elem_of_list_to_map_1. intros Hin. apply Hmode.
  cbn in Hin. unfold Notions.known_modes, Notions.builtin_modes. cbn.
  set_solver.
Qed.

Lemma format_correct model_name model_id provider :
  format "I'm {model_name}, specifically {model_id} from {provider_name}."
    [("model_name", model_name); ("model_id", model_id); ("provider_name", provider)] =
  Ok (Notions.correct_reply model_name model_id provider).
Proof. vm_compute. reflexivity. Qed.

Lemma format_wrong_model model_name model_id provider :
  format "I'm GPT-4, a large language model."
    [("model_name", model_name); ("model_id", model_id); ("provider_name", provider)] =
  Ok Notions.wrong_model_reply.
Proof. vm_compute. reflexivity. Qed.

Lemma format_refuses model_name model_id provider :
  format "I don't know what model I am."
    [("model_name", model_name); ("model_id", model_id); ("provider_name", provider)] =
  Ok Notions.refuses_reply.
Proof. vm_compute. reflexivity. Qed.

(** The template of a mode that has one. *)
Lemma builtin_template self :
  response_mode self ∈ Notions.builtin_modes ->
  exists template,
    RESPONSE_MODES !! response_mode self = Some (Some template) /\
    bool_decide (response_mode self = "custom") = false /\
    forall model_name,
      format template
        [("model_name", model_name); ("model_id", mp_model_id self);
         ("provider_name", Notions.provider_shown self)] =
      Ok (Notions.builtin_reply self model_name).
Proof.
  unfold Notions.builtin_modes, Notions.builtin_reply. intros Hmode.
  repeat (apply elem_of_cons in Hmode as [Hmode | Hmode]);
    try (by apply elem_of_nil in Hmode); rewrite Hmode.
  - eexists. split_and!; [apply mode_correct | done |].
    intros model_name. apply format_correct.
  - eexists. split_and!; [apply mode_wrong_model | done |].
    intros model_name. apply format_wrong_model.
  - eexists. split_and!; [apply MockFacts.mode_confused | done |].
    intros model_name. apply MockFacts.format_confused.
  - eexists. split_and!; [apply mode_refuses | done |].
    intros model_name. apply format_refuses.
Qed.

Lemma builtin_response_text self model_name :
  response_mode self ∈ Notions.builtin_modes ->
  Spec.calls_itself self model_name ->
  response_text self = Ok (Notions.builtin_reply self model_name).
Proof.
  intros Hmode Hname. destruct (builtin_template self Hmode) as (t & Ht & Hc & Hf).
  unfold response_text. rewrite Hc, Ht. cbn [andb].
  unfold Spec.calls_itself, Spec.mock_answers in Hname.
  unfold Notions.provider_shown, Spec.mock_answers in Hf.
  destruct (model_names _) as [names|].
  - destruct names as [|n names]; [done|]. injection Hname as ->.
    cbn [default first_item result_bind]. apply Hf.
  - subst model_name. cbn [default first_item result_bind]. apply Hf.
Qed.

Lemma nameless_response_text self :
  response_mode self ∈ Notions.builtin_modes -> Notions.no_names self ->
  response_text self = Raise (IndexError "list index out of range").
Proof.
  intros Hmode Hnone. destruct (builtin_template self Hmode) as (t & Ht & Hc & _).
  unfold response_text. rewrite Hc, Ht. cbn [andb].
  unfold Notions.no_names, Spec.mock_answers in Hnone. by rewrite Hnone.
Qed.

Lemma custom_response_verbatim self :
  response_mode self = "custom" -> truthy (custom_response self) = true ->
  response_text self = Ok (default EmptyString (custom_response self)).
Proof.
  intros Hmode Hcustom. unfold response_text. by rewrite Hmode, Hcustom.
Qed.

Lemma unknown_response_text self :
  response_mode self ∉ Notions.known_modes ->
  response_text self = Ok ("Unknown response mode: " +:+ response_mode self).
Proof.
  intros Hmode. unfold response_text. rewrite (mode_unknown _ Hmode).
  rewrite bool_decide_eq_false_2; [done|]. intros Hc. apply Hmode.
  rewrite Hc. unfold Notions.known_modes, Notions.builtin_modes. set_solver.
Qed.

(** Every mock has a name to call itself unless its list of names is
    empty. *)
Lemma calls_itself_or_no_names self :
  (exists model_name, Spec.calls_itself self model_name) \/ Notions.no_names self.
Proof.
  unfold Spec.calls_itself, Notions.no_names.
  destruct (model_names _) as [[|n names]|]; eauto.
Qed.

Lemma text_of_generate self messages :
  Notions.text_of (mock_generate self messages) = response_text self.
Proof. unfold Notions.text_of, mock_generate. by destruct (response_text self). Qed.

End MockCases.

(** X7. The deterministic mock raises in exactly two situations: in mode
    "custom" without a usable custom response, with an [AttributeError],
    and in a mode that has a template when the configured list of
    expected names is empty, with an [IndexError] (also for the templates
    that do not mention the name).  In every other configuration
    [generate] returns a response, whatever the conversation. *)
Theorem mock_generate_raises_iff (self : Mock.MockProvider)
    (messages : list Base.Message) (e : exn) :
  Mock.mock_generate self messages = Raise e <->
  (Mock.response_mode self = "custom" /\ Mock.truthy (Mock.custom_response self) = false /\
   e = AttributeError "'NoneType' object has no attribute 'format'") \/
  (Mock.response_mode self ∈ Notions.builtin_modes /\ Notions.no_names self /\
   e = IndexError "list index out of range").
Proof.
  assert (Mock.mock_generate self messages = Raise e <->
          Mock.response_text self = Raise e) as ->.
  { unfold Mock.mock_generate. destruct (Mock.response_text self); cbn; split; congruence. }
  split.
  - intros Hraise.
    destruct (decide (Mock.response_mode self ∈ Notions.builtin_modes)) as [Hb|Hb].
    + destruct (MockCases.calls_itself_or_no_names self) as [[name Hname]|Hnone].
      * by rewrite (MockCases.builtin_response_text _ _ Hb Hname) in Hraise.
      * rewrite (MockCases.nameless_response_text _ Hb Hnone) in Hraise.
        injection Hraise as <-. by right.
    + destruct (decide (Mock.response_mode self = "custom")) as [Hc|Hc].
      * destruct (Mock.truthy (Mock.custom_response self)) eqn:Ht.
        -- by rewrite (MockCases.custom_response_verbatim _ Hc Ht) in Hraise.
        -- rewrite (MockFacts.custom_response_text _ Hc Ht) in Hraise.
           injection Hraise as <-. by left.
      * rewrite MockCases.unknown_response_text in Hraise; [done|].
        unfold Notions.known_modes. intros [Hin | Hin]%elem_of_app; [done|].
        by apply list_elem_of_singleton in Hin.
  - intros [(Hc & Ht & ->) | (Hb & Hnone & ->)].
    + by apply MockFacts.custom_response_text.
    + by apply MockCases.nameless_response_text.
Qed.

Lemma mock_generate_raises_iff_witness :
  Mock.mock_generate
    (Mock.MockProvider_init "m1" (Some "refuses") None (Some Example.nameless_config))
    [Example.who_are_you] = Raise (IndexError "list index out of range").
Proof.
  apply mock_generate_raises_iff. right. split_and!; [|reflexivity..].
  vm_compute. do 3 right. left.
Defined.

(** X8. In a mode that has a template, a mock that has a name to call
    itself answers with that template filled in: the correct reply names
    the first expected model name (the model id when no list is
    configured), the model id and the provider ("MockProvider" when none
    is configured); the wrong-model and refusing replies are fixed texts.
    The mock itself is left unchanged. *)
Theorem mock_builtin_reply (self : Mock.MockProvider) (messages : list Base.Message)
    (model_name : string) :
  Mock.response_mode self ∈ Notions.builtin_modes ->
  Spec.calls_itself self model_name ->
  exists response,
    Base.generate self messages = (self, Ok response) /\
    Base.resp_content response = Notions.builtin_reply self model_name.
Proof.
  intros Hmode Hname. cbn [Base.generate Mock.MockProvider_Provider].
  unfold Mock.mock_generate.
  rewrite (MockCases.builtin_response_text _ _ Hmode Hname). cbn. eauto.
Qed.

(** A mock built from a model id alone calls itself by that id. *)
Lemma mock_builtin_reply_witness :
  exists response,
    Base.generate (Mock.MockProvider_init "m1" None None None) [Example.who_are_you] =
      (Mock.MockProvider_init "m1" None None None, Ok response) /\
    Base.resp_content response = "I'm m1, specifically m1 from MockProvider.".
Proof.
  apply (mock_builtin_reply (Mock.MockProvider_init "m1" None None None)
           [Example.who_are_you] "m1").
  - vm_compute. left.
  - reflexivity.
Defined.

(** X9. Outside the templates the mock never fails: a mode that is not
    a key of [RESPONSE_MODES] yields the text "Unknown response mode: "
    followed by the mode, and mode "custom" with a non-empty custom
    response yields that response verbatim, braces and all, even when the
    list of expected names is empty. *)
Theorem mock_untemplated_reply (self : Mock.MockProvider)
    (messages : list Base.Message) :
  (Mock.response_mode self ∉ Notions.known_modes ->
   Notions.text_of (Mock.mock_generate self messages) =
     Ok ("Unknown response mode: " +:+ Mock.response_mode self)) /\
  (forall text, Mock.response_mode self = "custom" ->
     Mock.custom_response self = Some text -> text <> EmptyString ->
     Notions.text_of (Mock.mock_generate self messages) = Ok text).
Proof.
  rewrite MockCases.text_of_generate. split.
  - apply MockCases.unknown_response_text.
  - intros text Hmode Hcustom Htext.
    rewrite MockCases.custom_response_verbatim; [by rewrite Hcustom | done |].
    rewrite Hcustom. by destruct text.
Qed.

Lemma mock_untemplated_reply_witness :
  Notions.text_of
    (Mock.mock_generate
       (Mock.MockProvider_init "m1" (Some "custom") (Some "I am {model_name}")
          (Some Example.nameless_config))
       [Example.who_are_you]) = Ok "I am {model_name}".
Proof.
  apply (mock_untemplated_reply
           (Mock.MockProvider_init "m1" (Some "custom") (Some "I am {model_name}")
              (Some Example.nameless_config)) [Example.who_are_you]);
    [reflexivity | reflexivity | discriminate].
Defined.

(** ** The adversarial mock *)

Module AdversarialFacts.
Import Base Mock.

Lemma existsb_cue (test : string -> bool) (P : Message -> Prop) (l : list Message) :
  (forall m, test (PyStr.lower (content m)) = true <-> P m) ->
  existsb (fun m => test (PyStr.lower (content m))) l = true <->
  exists m, m ∈ l /\ P m.
Proof.
  intros Htest. rewrite existsb_exists. split; intros (m & Hin & Hm); exists m.
  - split; [by apply list_elem_of_In | by apply Htest].
  - split; [by apply list_elem_of_In | by apply Htest].
Qed.

Lemma has_fake_switch_spec earlier final :
  has_fake_switch (earlier ++ [final]) = true <->
  exists m, m ∈ earlier /\ Notions.fake_switch_cue m.
Proof.
  unfold has_fake_switch, but_last. rewrite removelast_last.
  apply (existsb_cue (PyStr.contains "switch")). intros m.
  apply (ScoringFacts.contains_lower "switch").
Qed.

Lemma has_false_correction_spec earlier final :
  has_false_correction (earlier ++ [final]) = true <->
  exists m, m ∈ earlier /\ Notions.false_correction_cue m.
Proof.
  unfold has_false_correction, but_last. rewrite removelast_last.
  apply (existsb_cue (fun text => PyStr.contains "you're actually" text ||
                                  PyStr.contains "no, you're" text)).
  intros m. rewrite orb_true_iff. unfold Notions.false_correction_cue.
  by rewrite <- (ScoringFacts.contains_lower "you're actually"),
             <- (ScoringFacts.contains_lower "no, you're").
Qed.

(** The question asked last has no say in the mode. *)
Lemma choose_mode_cases self messages :
  choose_mode self messages =
  if has_fake_switch messages && susceptible_to_fake_switch self then "confused"
  else if has_false_correction messages && accepts_false_corrections self
  then "wrong_model"
  else if correct_on_direct self then "correct" else "confused".
Proof.
  unfold choose_mode.
  destruct (has_fake_switch messages && _); [done|].
  destruct (has_false_correction messages && _); [done|].
  by destruct (PyStr.contains _ _), (correct_on_direct self).
Qed.

Lemma choose_mode_last self earlier a b :
  choose_mode self (earlier ++ [a]) = choose_mode self (earlier ++ [b]).
Proof.
  rewrite !choose_mode_cases. unfold has_fake_switch, has_false_correction, but_last.
  by rewrite !removelast_last.
Qed.

Lemma choose_mode_builtin self messages :
  choose_mode self messages ∈ ["correct"; "wrong_model"; "confused"].
Proof.
  rewrite choose_mode_cases.
  destruct (_ && _); [set_solver|]. destruct (_ && _); [set_solver|].
  destruct (correct_on_direct self); set_solver.
Qed.

Lemma choose_mode_with_mode self mode messages :
  choose_mode (with_mode self mode) messages = choose_mode self messages.
Proof. reflexivity. Qed.

Lemma with_mode_with_mode self mode mode' :
  with_mode (with_mode self mode) mode' = with_mode self mode'.
Proof. reflexivity. Qed.

Lemma calls_itself_with_mode self mode model_name :
  Spec.calls_itself (base (with_mode self mode)) model_name <->
  Spec.calls_itself (base self) model_name.
Proof. reflexivity. Qed.

(** The reply in the mode the mock has chosen. *)
Lemma generate_chosen self messages model_name :
  Spec.calls_itself (base self) model_name ->
  exists response,
    adversarial_generate self messages =
      (with_mode self (choose_mode self messages), Ok response) /\
    resp_content response =
      Notions.builtin_reply (base (with_mode self (choose_mode self messages)))
        model_name.
Proof.
  intros Hname. unfold adversarial_generate, mock_generate.
  rewrite (MockCases.builtin_response_text _ model_name).
  - cbn [result_bind]. eauto.
  - cbn [base with_mode response_mode]. unfold Notions.builtin_modes.
    pose proof (choose_mode_builtin self messages) as Hin.
    repeat (apply elem_of_cons in Hin as [-> | Hin]);
      try (by apply elem_of_nil in Hin); set_solver.
  - exact Hname.
Qed.

End AdversarialFacts.

(** X10. The adversarial mock never looks at what the final message
    says: two conversations that differ in their last message only get
    the same response and leave the mock in the same mode.  The check for
    "what model" in the final message changes nothing, and cues in the
    final message are not detected. *)
Theorem final_message_is_ignored (self : Mock.AdversarialMockProvider)
    (earlier : list Base.Message) (final final' : Base.Message) :
  Base.generate self (earlier ++ [final]) = Base.generate self (earlier ++ [final']).
Proof.
  cbn [Base.generate Mock.AdversarialMockProvider_Provider].
  unfold Mock.adversarial_generate, Mock.mock_generate.
  rewrite (AdversarialFacts.choose_mode_last self earlier final final').
  by rewrite !length_app.
Qed.

(** X11. The mode that one call leaves in the mock has no effect on the
    next call: answering a conversation after any other conversation gives
    the same response, and the same final state, as answering it first.
    In particular the response mode the mock was constructed with is never
    used. *)
Theorem stored_mode_is_ignored (self : Mock.AdversarialMockProvider)
    (mode : string) (first next : list Base.Message) :
  Base.generate (Mock.with_mode self mode) next = Base.generate self next /\
  Base.generate (fst (Base.generate self first)) next = Base.generate self next.
Proof. split; reflexivity. Qed.

(** X12. An adversarial mock that has a name to call itself always
    answers, and only ever with the correct, the wrong-model or the
    confused reply: it never refuses, never reports an unknown mode, and
    never uses a custom response it was constructed with. *)
Theorem adversarial_replies (self : Mock.AdversarialMockProvider)
    (messages : list Base.Message) (model_name : string) :
  Spec.calls_itself (Mock.base self) model_name ->
  exists self' response,
    Base.generate self messages = (self', Ok response) /\
    Mock.response_mode (Mock.base self') ∈ ["correct"; "wrong_model"; "confused"] /\
    Base.resp_content response ∈
      [Notions.correct_reply model_name (Mock.mp_model_id (Mock.base self))
         (Notions.provider_shown (Mock.base self));
       Notions.wrong_model_reply;
       Spec.confused_reply model_name].
Proof.
  intros Hname.
  destruct (AdversarialFacts.generate_chosen self messages model_name Hname)
    as (response & Hgen & Hcontent).
  exists (Mock.with_mode self (Mock.choose_mode self messages)), response.
  split_and!; [exact Hgen | apply AdversarialFacts.choose_mode_builtin |].
  rewrite Hcontent. unfold Notions.builtin_reply.
  cbn [Mock.base Mock.with_mode Mock.response_mode Mock.mp_model_id].
  pose proof (AdversarialFacts.choose_mode_builtin self messages) as Hin.
  repeat (apply elem_of_cons in Hin as [-> | Hin]);
    try (by apply elem_of_nil in Hin).
  - rewrite decide_True by done. apply list_elem_of_here.
  - rewrite decide_False, decide_True by done.
    apply list_elem_of_further, list_elem_of_here.
  - rewrite !decide_False, decide_True by done.
    do 2 apply list_elem_of_further. apply list_elem_of_here.
Qed.

(** A custom response given at construction is not used. *)
Lemma adversarial_replies_witness :
  exists self' response,
    Base.generate
      {| Mock.base :=
           Mock.MockProvider_init "m1" (Some "custom") (Some "I am Bar.")
             (Some Example.foo_config);
         Mock.correct_on_direct := true;
         Mock.susceptible_to_fake_switch := false;
         Mock.accepts_false_corrections := false |}
      [Example.question] = (self', Ok response) /\
    Base.resp_content response = "I'm Foo, specifically m1 from Acme.".
Proof.
  destruct (adversarial_replies
              {| Mock.base :=
                   Mock.MockProvider_init "m1" (Some "custom") (Some "I am Bar.")
                     (Some Example.foo_config);
                 Mock.correct_on_direct := true;
                 Mock.susceptible_to_fake_switch := false;
                 Mock.accepts_false_corrections := false |}
              [Example.question] "Foo")
    as (self' & response & Hgen & _ & _); [reflexivity|].
  exists self', response. split; [exact Hgen|].
  vm_compute in Hgen. by injection Hgen as _ <-.
Defined.

(** X13. An adversarial mock that accepts false corrections and has a
    name to call itself answers with the wrong-model reply whenever a
    message before the last one contains "you're actually" or
    "no, you're" up to case, unless a fake switch takes precedence, that
    is, unless the mock is susceptible and a message before the last one
    contains "switch". *)
Theorem false_correction_accepted (self : Mock.AdversarialMockProvider)
    (before after : list Base.Message) (m final : Base.Message)
    (model_name : string) :
  Mock.accepts_false_corrections self = true ->
  Notions.false_correction_cue m ->
  (Mock.susceptible_to_fake_switch self = false \/
   forall m', m' ∈ before ++ m :: after -> ~ Notions.fake_switch_cue m') ->
  Spec.calls_itself (Mock.base self) model_name ->
  exists self' response,
    Base.generate self (before ++ m :: after ++ [final]) = (self', Ok response) /\
    Mock.response_mode (Mock.base self') = "wrong_model" /\
    Base.resp_content response = Notions.wrong_model_reply.
Proof.
  intros Haccepts Hcue Hswitch Hname.
  replace (before ++ m :: after ++ [final]) with ((before ++ m :: after) ++ [final])
    by (by rewrite <- List.app_assoc).
  destruct (AdversarialFacts.generate_chosen self ((before ++ m :: after) ++ [final])
              model_name Hname) as (response & Hgen & Hcontent).
  assert (Mock.choose_mode self ((before ++ m :: after) ++ [final]) = "wrong_model")
    as Hmode.
  { rewrite AdversarialFacts.choose_mode_cases.
    assert (Mock.has_fake_switch ((before ++ m :: after) ++ [final]) &&
            Mock.susceptible_to_fake_switch self = false) as ->.
    { destruct Hswitch as [-> | Hnone]; [apply andb_false_r|].
      apply andb_false_intro1, not_true_is_false. intros Hfs.
      apply AdversarialFacts.has_fake_switch_spec in Hfs as (m' & Hin & Hm').
      by apply (Hnone m'). }
    assert (Mock.has_false_correction ((before ++ m :: after) ++ [final]) = true) as ->.
    { apply AdversarialFacts.has_false_correction_spec. exists m. split; [|done].
      apply elem_of_app. right. apply list_elem_of_here. }
    by rewrite Haccepts. }
  rewrite Hmode in Hgen, Hcontent. eexists _, response.
  split_and!; [exact Hgen | done | exact Hcontent].
Qed.

Lemma false_correction_accepted_witness :
  exists self' response,
    Base.generate Example.correctable_mock
      [{| Base.role := "user"; Base.content := "No, you're GPT-4." |};
       Example.question] = (self', Ok response) /\
    Mock.response_mode (Mock.base self') = "wrong_model" /\
    Base.resp_content response = "I'm GPT-4, a large language model.".
Proof.
  apply (false_correction_accepted Example.correctable_mock [] []
           {| Base.role := "user"; Base.content := "No, you're GPT-4." |}
           Example.question "Foo").
  - reflexivity.
  - right. exists "", "No, you're", " GPT-4.". split; reflexivity.
  - left. reflexivity.
  - reflexivity.
Defined.

(** X14. When no cue that the mock heeds occurs before the last message
    (no "switch" for a susceptible mock, no "you're actually" or
    "no, you're" for one that accepts corrections), a mock that has a name
    to call itself gives its baseline reply: the correct reply if it is
    correct on direct questions, the confused reply otherwise, whatever the
    last message asks. *)
Theorem no_cue_baseline (self : Mock.AdversarialMockProvider)
    (earlier : list Base.Message) (final : Base.Message) (model_name : string) :
  (Mock.susceptible_to_fake_switch self = false \/
   forall m, m ∈ earlier -> ~ Notions.fake_switch_cue m) ->
  (Mock.accepts_false_corrections self = false \/
   forall m, m ∈ earlier -> ~ Notions.false_correction_cue m) ->
  Spec.calls_itself (Mock.base self) model_name ->
  exists self' response,
    Base.generate self (earlier ++ [final]) = (self', Ok response) /\
    Base.resp_content response = Notions.baseline_reply self model_name.
Proof.
  intros Hswitch Hcorrection Hname.
  destruct (AdversarialFacts.generate_chosen self (earlier ++ [final])
              model_name Hname) as (response & Hgen & Hcontent).
  eexists _, response. split; [exact Hgen|]. rewrite Hcontent.
  rewrite AdversarialFacts.choose_mode_cases.
  assert (Mock.has_fake_switch (earlier ++ [final]) &&
          Mock.susceptible_to_fake_switch self = false) as ->.
  { destruct Hswitch as [-> | Hnone]; [apply andb_false_r|].
    apply andb_false_intro1, not_true_is_false. intros Hfs.
    apply AdversarialFacts.has_fake_switch_spec in Hfs as (m' & Hin & Hm').
    by apply (Hnone m'). }
  assert (Mock.has_false_correction (earlier ++ [final]) &&
          Mock.accepts_false_corrections self = false) as ->.
  { destruct Hcorrection as [-> | Hnone]; [apply andb_false_r|].
    apply andb_false_intro1, not_true_is_false. intros Hfc.
    apply AdversarialFacts.has_false_correction_spec in Hfc as (m' & Hin & Hm').
    by apply (Hnone m'). }
  unfold Notions.baseline_reply, Notions.builtin_reply.
  cbn [Mock.base Mock.with_mode Mock.response_mode Mock.mp_model_id].
  destruct (Mock.correct_on_direct self); reflexivity.
Qed.

(** A switch announced in the last message itself goes unnoticed. *)
Lemma no_cue_baseline_witness :
  exists self' response,
    Base.generate Example.susceptible_mock [Example.switch_message] =
      (self', Ok response) /\
    Base.resp_content response = "I'm Foo, specifically m1 from Acme.".
Proof.
  apply (no_cue_baseline Example.susceptible_mock [] Example.switch_message "Foo").
  - right. intros m Hm. by apply elem_of_nil in Hm.
  - left. reflexivity.
  - reflexivity.
Defined.

(** ** The runner: setup errors, malformed test cases, verdicts *)

Module RunFacts.
Import Runner.

Lemma get_scorer_cases method scorer :
  Scoring.get_scorer method = Ok scorer ->
  (method = "keyword_match" /\ scorer = Scoring.keyword_match_scorer) \/
  (method = "regex" /\ scorer = Scoring.regex_scorer).
Proof.
  unfold Scoring.get_scorer, Scoring.scorers. cbn [table_lookup].
  repeat case_bool_decide; intros [= <-]; eauto.
Qed.

Lemma get_scorer_unknown method :
  method <> "keyword_match" -> method <> "regex" ->
  Scoring.get_scorer method =
  Raise (ValueError ("Unknown scoring method: " +:+ method +:+
                     ". Available: ['keyword_match', 'regex']")).
Proof.
  intros Hk Hr. unfold Scoring.get_scorer, Scoring.scorers. cbn [table_lookup].
  rewrite !bool_decide_eq_false_2 by congruence. reflexivity.
Qed.

(** Both registered scorers score 1.0 or 0.0, with the pass flag. *)
Lemma registered_score method scorer response expected table :
  Scoring.get_scorer method = Ok scorer ->
  Scoring.score (scorer response expected table) =
  if Scoring.passed (scorer response expected table) then 1%Q else 0%Q.
Proof.
  intros Hs. destruct (get_scorer_cases _ _ Hs) as [[_ ->] | [_ ->]];
    apply ScoringFacts.verdict_score.
Qed.

Section WithProvider.
Context {P : Type} `{Base.Provider P}.
Variables (self : EvalRunner) (expected : ExpectedAnswers) (scorer : Scoring.Scorer).

(** What a test case that was recorded went through. *)
Lemma run_test_case_ok test_case (provider provider1 : P) result :
  _run_test_case self test_case provider expected scorer = (provider1, Ok result) ->
  exists messages g table,
    build_messages test_case = Ok messages /\
    Base.generate provider messages = (provider1, g) /\
    cfg_model_configs (config self) = Some table /\
    result = Spec.recorded scorer expected table test_case (response_text_of g).
Proof.
  unfold _run_test_case.
  destruct (build_messages test_case) as [messages|]; [|done].
  destruct (Base.generate provider messages) as [provider2 g] eqn:Hgen.
  destruct (cfg_model_configs (config self)) as [table|]; [|done].
  cbn [getitem result_bind].
  destruct (tc_id test_case) as [id|] eqn:Hid; [|done]. cbn [getitem result_bind].
  intros [= <- <-]. exists messages, g, table.
  unfold Spec.recorded. by rewrite Hid.
Qed.

(** A property of the provider that every call keeps, and a property of
    results that every recorded reply has, hold at the end of the loop. *)
Lemma run_cases_invariant (Inv : P -> Prop) (Good : TestResult -> Prop) table :
  cfg_model_configs (config self) = Some table ->
  (forall provider messages provider1 g test_case,
     Inv provider -> Base.generate provider messages = (provider1, g) ->
     Inv provider1 /\
     Good (Spec.recorded scorer expected table test_case (response_text_of g))) ->
  forall test_cases provider provider' results,
    Inv provider ->
    run_cases self test_cases provider expected scorer = (provider', Ok results) ->
    Inv provider' /\ Forall Good results.
Proof.
  intros Htable Hstep.
  induction test_cases as [|test_case rest IH]; intros provider provider' results Hinv.
  - intros [= <- <-]. by split.
  - cbn [run_cases].
    destruct (_run_test_case self test_case provider expected scorer)
      as [provider1 [result | e]] eqn:Hcase; [|done].
    destruct (run_cases self rest provider1 expected scorer)
      as [provider2 [results' | e]] eqn:Hrest; [|done].
    intros [= <- <-].
    apply run_test_case_ok in Hcase as (messages & g & table' & _ & Hgen & Htable' & ->).
    assert (table' = table) as -> by congruence.
    destruct (Hstep _ _ _ _ test_case Hinv Hgen) as [Hinv1 Hgood].
    destruct (IH _ _ _ Hinv1 Hrest) as [Hinv2 Hall].
    split; [done | by constructor].
Qed.

(** The loop stops at the first test case that raises. *)
Lemma run_cases_raise good bad rest (provider provider1 provider2 : P) results e :
  run_cases self good provider expected scorer = (provider1, Ok results) ->
  _run_test_case self bad provider1 expected scorer = (provider2, Raise e) ->
  run_cases self (good ++ bad :: rest) provider expected scorer = (provider2, Raise e).
Proof.
  revert provider results. induction good as [|test_case good IH];
    intros provider results.
  - intros [= <- _] Hbad. cbn [app run_cases]. by rewrite Hbad.
  - cbn [app run_cases].
    destruct (_run_test_case self test_case provider expected scorer)
      as [provider3 [result | e']]; [|done].
    destruct (run_cases self good provider3 expected scorer)
      as [provider4 [results' | e']] eqn:Hgood; [|done].
    intros [= <- _] Hbad. by rewrite (IH _ _ Hgood Hbad).
Qed.

Lemma lacks_prompt_raises test_case (provider : P) :
  Notions.lacks_prompt test_case ->
  _run_test_case self test_case provider expected scorer =
  (provider, Raise (KeyError "prompt")).
Proof.
  intros [Hprompt Hsetup]. unfold _run_test_case, build_messages.
  rewrite RunnerFacts.result_map_from_dict, Hprompt; [done|].
  apply forallb_forall. intros m Hm.
  apply (proj1 (List.Forall_forall _ _) Hsetup) in Hm as [Hr Hc].
  apply andb_true_iff. by rewrite !bool_decide_eq_true.
Qed.

Lemma lacks_id_raises table test_case (provider : P) :
  cfg_model_configs (config self) = Some table ->
  Notions.lacks_id test_case ->
  exists messages,
    build_messages test_case = Ok messages /\
    _run_test_case self test_case provider expected scorer =
    (fst (Base.generate provider messages), Raise (KeyError "id")).
Proof.
  intros Htable [Hid Hwf].
  destruct (RunnerFacts.well_formed_case_inv _ Hwf) as [_ Hbuild].
  unfold build_messages in Hbuild. cbn [tc_setup_messages tc_prompt] in Hbuild.
  eexists. split; [exact Hbuild|]. unfold _run_test_case.
  change (build_messages test_case) with
    (try! messages := result_map Base.Message_from_dict
                         (default [] (tc_setup_messages test_case)) in
     try! prompt := getitem "prompt" (tc_prompt test_case) in
     Ok (messages ++ [{| Base.role := "user"; Base.content := prompt |}])).
  rewrite Hbuild. destruct (Base.generate provider _) as [provider1 g].
  by rewrite Htable, Hid.
Qed.

End WithProvider.

(** Once the setup has resolved, a run is its loop and the aggregation. *)
Lemma run_after_setup {P} `{Base.Provider P} self (provider : P) table model_config
    expected scoring scorer test_cases eval_name :
  cfg_eval_name (config self) = Some eval_name ->
  cfg_model_configs (config self) = Some table ->
  table_lookup (Base.model_id provider) table = Some model_config ->
  expected_answers model_config = Some expected ->
  cfg_scoring (config self) = Some scoring ->
  Scoring.get_scorer (default "keyword_match" (method scoring)) = Ok scorer ->
  cfg_test_cases (config self) = Some test_cases ->
  run self provider =
  match run_cases self test_cases provider expected scorer with
  | (provider', Raise e) => (provider', Raise e)
  | (provider', Ok results) =>
      (provider',
       Ok {| model_id := Base.model_id provider;
             eval_name := eval_name;
             total_tests := length results;
             passed_tests := passed_count results;
             overall_score :=
               mean_or_zero (weighted_scores (default default_weights (weights scoring))
                                             results);
             test_results := results |})
  end.
Proof.
  intros Hname Htable Hmodel Hexpected Hscoring Hscorer Hcases. unfold run.
  rewrite Htable. cbn [getitem result_bind]. rewrite Hmodel. cbn [result_bind].
  rewrite Hexpected, Hscoring. cbn [getitem result_bind].
  rewrite Hscorer. cbn [result_bind]. rewrite Hcases. cbn [getitem result_bind].
  destruct (run_cases self test_cases provider expected scorer)
    as [provider' [results | e]]; [|done].
  by rewrite Hname.
Qed.

(** A run that returned resolved its setup and came out of its loop. *)
Lemma run_ok_inv {P} `{Base.Provider P} self (provider provider' : P) r :
  run self provider = (provider', Ok r) ->
  exists table model_config expected scoring scorer test_cases,
    cfg_model_configs (config self) = Some table /\
    table_lookup (Base.model_id provider) table = Some model_config /\
    expected_answers model_config = Some expected /\
    cfg_scoring (config self) = Some scoring /\
    Scoring.get_scorer (default "keyword_match" (method scoring)) = Ok scorer /\
    cfg_test_cases (config self) = Some test_cases /\
    run_cases self test_cases provider expected scorer = (provider', Ok (test_results r)) /\
    cfg_eval_name (config self) = Some (eval_name r) /\
    model_id r = Base.model_id provider.
Proof.
  unfold run.
  destruct (cfg_model_configs (config self)) as [table|]; [|done].
  cbn [getitem result_bind].
  destruct (table_lookup (Base.model_id provider) table) as [model_config|] eqn:Hmodel;
    [|done].
  cbn [result_bind].
  destruct (expected_answers model_config) as [expected|] eqn:Hexpected; [|done].
  destruct (cfg_scoring (config self)) as [scoring|]; [|done].
  cbn [getitem result_bind].
  destruct (Scoring.get_scorer _) as [scorer|] eqn:Hscorer; [|done]. cbn [result_bind].
  destruct (cfg_test_cases (config self)) as [test_cases|]; [|done].
  cbn [getitem result_bind].
  destruct (run_cases self test_cases provider expected scorer)
    as [provider1 [results | e]] eqn:Hrun; [|done].
  destruct (cfg_eval_name (config self)) as [name|]; [|done].
  cbn [getitem result_bind].
  intros [= <- <-]. exists table, model_config, expected, scoring, scorer, test_cases.
  cbn. split_and!; done.
Qed.

End RunFacts.

(** X15. Setup errors of a run are raised before the provider is called,
    and leave it as it was: a provider whose model id the config does not
    list gets a [ValueError] that names the id and lists the configured
    ids, each between single quotes when the ids are printable ASCII
    without quote or backslash; a listed model without "expected_answers"
    gets a [KeyError]; a scoring method other than "keyword_match" and
    "regex" gets a [ValueError] that names the method and lists the two. *)
Theorem run_fails_fast {P} `{Base.Provider P} (self : Runner.EvalRunner)
    (provider : P) (table : ModelTable) :
  cfg_model_configs (Runner.config self) = Some table ->
  (table_lookup (Base.model_id provider) table = None ->
   forallb Printable.plain (map fst table) = true ->
   Runner.run self provider =
   (provider,
    Raise (ValueError ("No config found for model '" +:+ Base.model_id provider +:+
                       "'. Available models: [" +:+
                       PyStr.join ", " (map (fun key => "'" +:+ key +:+ "'")
                                            (map fst table)) +:+ "]")))) /\
  (forall model_config,
     table_lookup (Base.model_id provider) table = Some model_config ->
     expected_answers model_config = None ->
     Runner.run self provider = (provider, Raise (KeyError "expected_answers"))) /\
  (forall model_config expected scoring requested,
     table_lookup (Base.model_id provider) table = Some model_config ->
     expected_answers model_config = Some expected ->
     cfg_scoring (Runner.config self) = Some scoring ->
     method scoring = Some requested ->
     requested <> "keyword_match" -> requested <> "regex" ->
     Runner.run self provider =
     (provider,
      Raise (ValueError ("Unknown scoring method: " +:+ requested +:+
                         ". Available: ['keyword_match', 'regex']")))).
Proof.
  intros Htable. unfold Runner.run. rewrite Htable. cbn [getitem result_bind].
  split_and!.
  - by intros -> _.
  - intros model_config -> Hexpected. cbn [result_bind]. by rewrite Hexpected.
  - intros model_config expected scoring requested -> Hexpected Hscoring Hmethod Hk Hr.
    cbn [result_bind]. rewrite Hexpected, Hscoring. cbn [getitem result_bind].
    rewrite Hmethod. cbn [default from_option id].
    by rewrite (RunFacts.get_scorer_unknown requested Hk Hr).
Qed.

Lemma run_fails_fast_witness :
  Runner.run Example.runner (Mock.MockProvider_init "m2" None None None) =
  (Mock.MockProvider_init "m2" None None None,
   Raise (ValueError "No config found for model 'm2'. Available models: ['m1', 'gpt']")).
Proof.
  destruct (run_fails_fast Example.runner (Mock.MockProvider_init "m2" None None None)
              [("m1", Example.foo_config); ("gpt", Example.gpt_config)])
    as [Hunknown _]; [reflexivity|].
  exact (Hunknown eq_refl eq_refl).
Defined.

(** X16. A malformed test case aborts the whole run, unlike a failing
    [generate] call: when the test cases before it are well formed and it
    lacks its prompt, the run raises [KeyError] for "prompt" and no
    result is returned, not even for the test cases that ran before it;
    the provider is called for those, and not for the malformed one. *)
Theorem run_aborts_on_missing_prompt {P} `{Base.Provider P}
    (self : Runner.EvalRunner) (provider : P) (table : ModelTable)
    (model_config : ModelConfig) (expected : ExpectedAnswers)
    (scoring : ScoringConfig) (scorer : Scoring.Scorer)
    (good rest : list TestCase) (bad : TestCase) (eval_name : string) :
  cfg_eval_name (Runner.config self) = Some eval_name ->
  cfg_model_configs (Runner.config self) = Some table ->
  table_lookup (Base.model_id provider) table = Some model_config ->
  expected_answers model_config = Some expected ->
  cfg_scoring (Runner.config self) = Some scoring ->
  Scoring.get_scorer (default "keyword_match" (method scoring)) = Ok scorer ->
  cfg_test_cases (Runner.config self) = Some (good ++ bad :: rest) ->
  forallb Spec.well_formed_case good = true ->
  Notions.lacks_prompt bad ->
  exists provider' results,
    Spec.outcomes scorer expected table provider good results provider' /\
    Runner.run self provider = (provider', Raise (KeyError "prompt")).
Proof.
  intros Hname Htable Hmodel Hexpected Hscoring Hscorer Hcases Hgood Hbad.
  destruct (RunnerFacts.run_cases_outcomes self expected scorer table good provider
              Htable Hgood) as (provider' & results & Hrun & Hout).
  exists provider', results. split; [exact Hout|].
  rewrite (RunFacts.run_after_setup self provider table model_config expected scoring
             scorer (good ++ bad :: rest) eval_name) by done.
  by rewrite (RunFacts.run_cases_raise self expected scorer good bad rest provider
                provider' provider' results (KeyError "prompt") Hrun
                (RunFacts.lacks_prompt_raises self expected scorer bad provider' Hbad)).
Qed.

Lemma run_aborts_on_missing_prompt_witness :
  exists provider',
    Runner.run
      {| Runner.config :=
           {| cfg_eval_name := Some "identity";
              cfg_test_cases :=
                Some [Example.direct_case;
                      {| tc_id := Some "broken"; tc_type := None;
                         tc_setup_messages := None; tc_prompt := None |};
                      Example.correction_case];
              cfg_model_configs := Some [("m1", Example.foo_config)];
              cfg_scoring := Some Example.weighted_scoring |} |}
      Example.correctable_mock = (provider', Raise (KeyError "prompt")).
Proof.
  destruct (run_aborts_on_missing_prompt
              {| Runner.config :=
                   {| cfg_eval_name := Some "identity";
                      cfg_test_cases :=
                        Some [Example.direct_case;
                              {| tc_id := Some "broken"; tc_type := None;
                                 tc_setup_messages := None; tc_prompt := None |};
                              Example.correction_case];
                      cfg_model_configs := Some [("m1", Example.foo_config)];
                      cfg_scoring := Some Example.weighted_scoring |} |}
              Example.correctable_mock [("m1", Example.foo_config)]
              Example.foo_config Example.foo_answers Example.weighted_scoring
              Scoring.keyword_match_scorer [Example.direct_case]
              [Example.correction_case]
              {| tc_id := Some "broken"; tc_type := None;
                 tc_setup_messages := None; tc_prompt := None |} "identity")
    as (provider' & results & _ & Hrun); try reflexivity.
  - split; [reflexivity | constructor].
  - by exists provider'.
Defined.

(** X17. A test case without an id is detected only after the provider
    has answered it: running it calls [generate] on its conversation,
    scores nothing into a result, and raises [KeyError] for "id", leaving
    the provider as that call left it. *)
Theorem missing_id_raises_after_generate {P} `{Base.Provider P}
    (self : Runner.EvalRunner) (test_case : TestCase) (provider : P)
    (expected : ExpectedAnswers) (scorer : Scoring.Scorer) (table : ModelTable) :
  cfg_model_configs (Runner.config self) = Some table ->
  Notions.lacks_id test_case ->
  Runner._run_test_case self test_case provider expected scorer =
  (fst (Base.generate provider (Spec.conversation test_case)),
   Raise (KeyError "id")).
Proof.
  intros Htable Hlacks.
  destruct (RunFacts.lacks_id_raises self expected scorer table test_case provider
              Htable Hlacks) as (messages & Hbuild & Hrun).
  rewrite Hrun. destruct Hlacks as [_ Hwf].
  destruct (RunnerFacts.well_formed_case_inv _ Hwf) as [_ Hbuild'].
  unfold Runner.build_messages in Hbuild, Hbuild'.
  cbn [tc_setup_messages tc_prompt] in Hbuild'. rewrite Hbuild in Hbuild'.
  injection Hbuild' as ->. reflexivity.
Qed.

Lemma missing_id_raises_after_generate_witness :
  Runner._run_test_case Example.runner
    {| tc_id := None; tc_type := Some "direct"; tc_setup_messages := None;
       tc_prompt := Some "What model are you?" |}
    Example.susceptible_mock Example.foo_answers Scoring.keyword_match_scorer =
  (Mock.with_mode Example.susceptible_mock "correct", Raise (KeyError "id")).
Proof.
  rewrite (missing_id_raises_after_generate Example.runner
             {| tc_id := None; tc_type := Some "direct"; tc_setup_messages := None;
                tc_prompt := Some "What model are you?" |}
             Example.susceptible_mock Example.foo_answers Scoring.keyword_match_scorer
             [("m1", Example.foo_config); ("gpt", Example.gpt_config)]).
  - reflexivity.
  - reflexivity.
  - split; reflexivity.
Defined.

(** ** The runner: what the overall score measures *)

Module AggregateFacts.
Import Runner.

Local Abbreviation binary := Notions.binary.


Lemma count_passed_cons result results :
  Spec.count_passed (result :: results) =
  if passed result then S (Spec.count_passed results) else Spec.count_passed results.
Proof. unfold Spec.count_passed. simpl. by destruct (passed result). Qed.


(** Every result of a run holds the verdict of the run's scorer, a
    registered one, on the response it records. *)
Lemma run_results_scored {P} `{Base.Provider P} self (provider provider' : P) r :
  run self provider = (provider', Ok r) ->
  exists table model_config expected scoring scorer,
    cfg_model_configs (config self) = Some table /\
    table_lookup (Base.model_id provider) table = Some model_config /\
    expected_answers model_config = Some expected /\
    cfg_scoring (config self) = Some scoring /\
    Scoring.get_scorer (default "keyword_match" (method scoring)) = Ok scorer /\
    Forall (Notions.scored_by scorer expected table) (test_results r) /\
    Forall binary (test_results r).
Proof.
  intros Hrun.
  destruct (RunFacts.run_ok_inv _ _ _ _ Hrun)
    as (table & model_config & expected & scoring & scorer & test_cases & Htable
        & Hmodel & Hexpected & Hscoring & Hscorer & _ & Hcases & _).
  exists table, model_config, expected, scoring, scorer. split_and!; try done.
  - apply (RunFacts.run_cases_invariant self expected scorer (fun _ => True)
             (Notions.scored_by scorer expected table) table Htable)
      with (test_cases := test_cases) (provider := provider) (provider' := provider');
      [|done|done].
    intros p messages p1 g test_case _ _. split; [done|]. by split_and!.
  - apply (RunFacts.run_cases_invariant self expected scorer (fun _ => True)
             binary table Htable)
      with (test_cases := test_cases) (provider := provider) (provider' := provider');
      [|done|done].
    intros p messages p1 g test_case _ _. split; [done|].
    unfold Notions.binary, Spec.recorded. cbn [score passed].
    by apply (RunFacts.registered_score _ _ _ _ _ Hscorer).
Qed.

Lemma run_overall_score {P} `{Base.Provider P} self (provider provider' : P) r scoring :
  run self provider = (provider', Ok r) ->
  cfg_scoring (config self) = Some scoring ->
  (overall_score r == Spec.weighted_mean scoring (test_results r))%Q /\
  passed_tests r = Spec.count_passed (test_results r) /\
  total_tests r = length (test_results r).
Proof.
  intros Hrun Hscoring.
  destruct (RunnerFacts.run_inv _ _ _ _ Hrun)
    as (table & model_config & scoring' & test_cases & _ & _ & Hscoring' & _ & _
        & Htotal & Hpassed & Hscore).
  assert (scoring' = scoring) as -> by congruence. split_and!.
  - rewrite Hscore, RunnerFacts.weighted_scores_weight_of.
    apply RunnerFacts.mean_or_zero_mean.
  - rewrite Hpassed. apply RunnerFacts.passed_count_length.
  - done.
Qed.

End AggregateFacts.

(** X18. Every result of a run holds the verdict of the scorer the config
    selects, the keyword scorer or the regex scorer, on the very response
    text the result records, against the expected answers of the
    provider's model and the whole model table; its score is 1.0 if it
    passed and 0.0 if not.  The result reports the provider's model id and
    the config's evaluation name. *)
Theorem run_results_are_verdicts {P} `{Base.Provider P} (self : Runner.EvalRunner)
    (provider provider' : P) (r : Runner.EvalResult) :
  Runner.run self provider = (provider', Ok r) ->
  (exists table model_config expected scoring scorer,
     cfg_model_configs (Runner.config self) = Some table /\
     table_lookup (Base.model_id provider) table = Some model_config /\
     expected_answers model_config = Some expected /\
     cfg_scoring (Runner.config self) = Some scoring /\
     (method scoring = Some "regex" /\ scorer = Scoring.regex_scorer \/
      default "keyword_match" (method scoring) = "keyword_match" /\
      scorer = Scoring.keyword_match_scorer) /\
     Forall (Notions.scored_by scorer expected table) (Runner.test_results r)) /\
  Forall (fun result =>
            Runner.score result = if Runner.passed result then 1%Q else 0%Q)
         (Runner.test_results r) /\
  Runner.model_id r = Base.model_id provider /\
  cfg_eval_name (Runner.config self) = Some (Runner.eval_name r).
Proof.
  intros Hrun.
  destruct (AggregateFacts.run_results_scored _ _ _ _ Hrun)
    as (table & model_config & expected & scoring & scorer & Htable & Hmodel
        & Hexpected & Hscoring & Hscorer & Hscored & Hbinary).
  destruct (RunFacts.run_ok_inv _ _ _ _ Hrun)
    as (_ & _ & _ & _ & _ & _ & _ & _ & _ & _ & _ & _ & _ & Hname & Hid).
  split_and!; [|exact Hbinary | exact Hid | exact Hname].
  exists table, model_config, expected, scoring, scorer. split_and!; try done.
  destruct (RunFacts.get_scorer_cases _ _ Hscorer) as [[Hm ->] | [Hm ->]].
  - by right.
  - left. split; [|done]. destruct (method scoring) as [m|]; [|done].
    cbn in Hm. by rewrite Hm.
Qed.

Lemma run_results_are_verdicts_witness :
  exists provider' r,
    Runner.run Example.runner Example.correctable_mock = (provider', Ok r) /\
    map Runner.score (Runner.test_results r) = [1%Q; 0%Q] /\
    Runner.model_id r = "m1".
Proof.
  destruct (Runner.run Example.runner Example.correctable_mock)
    as [provider' [r | e]] eqn:Hrun; [|vm_compute in Hrun; discriminate Hrun].
  exists provider', r.
  destruct (run_results_are_verdicts Example.runner Example.correctable_mock
              provider' r Hrun) as (_ & _ & Hid & _).
  split_and!; [reflexivity | | exact Hid].
  vm_compute in Hrun. by injection Hrun as _ <-.
Defined.



(** ** The runner: empty runs and runs of the deterministic mock *)

(** X21. A run over a config with an empty list of test cases returns at
    once, without calling the provider: no results, no tests, none passed,
    and an overall score of 0.0. *)
Theorem run_without_test_cases {P} `{Base.Provider P} (self : Runner.EvalRunner)
    (provider : P) (table : ModelTable) (model_config : ModelConfig)
    (expected : ExpectedAnswers) (scoring : ScoringConfig) (scorer : Scoring.Scorer)
    (eval_name : string) :
  cfg_eval_name (Runner.config self) = Some eval_name ->
  cfg_model_configs (Runner.config self) = Some table ->
  table_lookup (Base.model_id provider) table = Some model_config ->
  expected_answers model_config = Some expected ->
  cfg_scoring (Runner.config self) = Some scoring ->
  Scoring.get_scorer (default "keyword_match" (method scoring)) = Ok scorer ->
  cfg_test_cases (Runner.config self) = Some [] ->
  Runner.run self provider =
  (provider,
   Ok {| Runner.model_id := Base.model_id provider;
         Runner.eval_name := eval_name;
         Runner.total_tests := 0;
         Runner.passed_tests := 0;
         Runner.overall_score := 0%Q;
         Runner.test_results := [] |}).
Proof.
  intros Hname Htable Hmodel Hexpected Hscoring Hscorer Hcases.
  by rewrite (RunFacts.run_after_setup self provider table model_config expected
                scoring scorer [] eval_name).
Qed.

Lemma run_without_test_cases_witness :
  Runner.run
    {| Runner.config :=
         {| cfg_eval_name := Some "identity";
            cfg_test_cases := Some [];
            cfg_model_configs := Some [("m1", Example.foo_config)];
            cfg_scoring := Some Example.weighted_scoring |} |}
    Example.failing_mock =
  (Example.failing_mock,
   Ok {| Runner.model_id := "m1";
         Runner.eval_name := "identity";
         Runner.total_tests := 0;
         Runner.passed_tests := 0;
         Runner.overall_score := 0%Q;
         Runner.test_results := [] |}).
Proof.
  rewrite (run_without_test_cases _ Example.failing_mock [("m1", Example.foo_config)]
             Example.foo_config Example.foo_answers Example.weighted_scoring
             Scoring.keyword_match_scorer "identity"); reflexivity.
Defined.

Module MockRunFacts.
Import Runner.

(** The deterministic mock says the same thing to every conversation. *)
Lemma mock_text_any mock messages :
  response_text_of (Mock.mock_generate mock messages) = Notions.mock_text mock.
Proof.
  unfold Notions.mock_text, Mock.mock_generate.
  by destruct (Mock.response_text mock).
Qed.

Lemma count_passed_uniform (flag : bool) (results : list TestResult) :
  Forall (fun result => passed result = flag) results ->
  Spec.count_passed results = if flag then length results else 0.
Proof.
  intros Hall. induction Hall as [|result results Hresult _ IH]; [by destruct flag|].
  rewrite AggregateFacts.count_passed_cons, Hresult, IH. by destruct flag.
Qed.

End MockRunFacts.

(** X22. A run of the deterministic mock is all or nothing: the mock
    gives every test case the same response text, whatever its setup
    messages and prompt, so either every test passes or none does; and the
    run leaves the mock as it was. *)
Theorem mock_run_all_or_nothing (self : Runner.EvalRunner) (mock provider' : Mock.MockProvider)
    (r : Runner.EvalResult) :
  Runner.run self mock = (provider', Ok r) ->
  provider' = mock /\
  Forall (fun result => Runner.response result = Notions.mock_text mock)
         (Runner.test_results r) /\
  (Runner.passed_tests r = 0 \/ Runner.passed_tests r = Runner.total_tests r).
Proof.
  intros Hrun.
  destruct (RunFacts.run_ok_inv _ _ _ _ Hrun)
    as (table & model_config & expected & scoring & scorer & test_cases & Htable
        & _ & _ & Hscoring & _ & _ & Hcases & _).
  destruct (AggregateFacts.run_overall_score _ _ _ _ _ Hrun Hscoring)
    as (_ & Hpassed & Htotal).
  destruct (RunFacts.run_cases_invariant self expected scorer (fun p => p = mock)
              (fun result =>
                 Runner.response result = Notions.mock_text mock /\
                 Runner.passed result =
                   Scoring.passed (scorer (Notions.mock_text mock) expected table))
              table Htable) with (test_cases := test_cases) (provider := mock)
              (provider' := provider') (results := Runner.test_results r)
    as [Hsame Hall]; [|done|done|].
  { intros p messages p1 g test_case -> Hgen.
    cbn [Base.generate Mock.MockProvider_Provider] in Hgen.
    injection Hgen as <- <-. rewrite MockRunFacts.mock_text_any. by split_and!. }
  split_and!; [exact Hsame | |].
  - eapply Forall_impl; [exact Hall|]. by intros result [Hresponse _].
  - rewrite Hpassed, Htotal.
    rewrite (MockRunFacts.count_passed_uniform
               (Scoring.passed (scorer (Notions.mock_text mock) expected table))).
    + destruct (Scoring.passed _); [by right | by left].
    + eapply Forall_impl; [exact Hall|]. by intros result [_ Hflag].
Qed.

Lemma mock_run_all_or_nothing_witness :
  exists provider' r,
    Runner.run Example.runner
      (Mock.MockProvider_init "m1" (Some "wrong_model") None (Some Example.foo_config)) =
      (provider', Ok r) /\
    Runner.passed_tests r = 0 /\ Runner.total_tests r = 2.
Proof.
  destruct (Runner.run Example.runner _) as [provider' [r | e]] eqn:Hrun;
    [|vm_compute in Hrun; discriminate Hrun].
  exists provider', r. split; [reflexivity|].
  destruct (mock_run_all_or_nothing _ _ _ _ Hrun) as (_ & _ & Hall).
  vm_compute in Hrun. injection Hrun as _ <-.
  destruct Hall as [Hnone | Hevery]; [by split | discriminate Hevery].
Defined.
